(** * rrss-common-parse: the feed enrichment pipeline of [Parse.go]

    A shallow embedding of package [parse]: identity resolution
    ([hashContent], [generateId]), the per-item enrichment task spawned by
    [Parse], the aggregation of the records into the shared slice
    [feedItems], and the stand-alone extractor [GetExtendedArticle].

    Go strings are byte strings, so they are Rocq [string]s (one [ascii] per
    byte) and [len] is [String.length].  The collaborators the package
    imports (gofeed, GoOse, bluemonday, goquery, net/http, uuid, the clock)
    are fields of a [World]; crypto/sha1 and encoding/hex are written out. *)

From Stdlib Require Import ZArith List String Ascii Bool Lia PeanoNat DecimalString
  Permutation.
Import ListNotations.
Open Scope string_scope.

(** ** Bytes of a Go string *)

Definition byte_of_ascii (c : ascii) : Z := Z.of_nat (nat_of_ascii c).

(** [[]byte(content)] *)
Definition bytes_of_string (s : string) : list Z :=
  map byte_of_ascii (list_ascii_of_string s).

(** ** crypto/sha1 *)

Module sha1.

Local Open Scope Z_scope.

Definition Size : nat := 20%nat.
Definition BlockSize : Z := 64.

Definition u32 (x : Z) : Z := x mod 4294967296.
Definition u64 (x : Z) : Z := x mod 18446744073709551616.

(** [bits.RotateLeft32 x n] on a 32-bit word *)
Definition rotl (n x : Z) : Z :=
  u32 (Z.lor (Z.shiftl x n) (Z.shiftr x (32 - n))).

(** [^x] on a 32-bit word *)
Definition not32 (x : Z) : Z := Z.lxor x 4294967295.

Definition init0 : Z := 1732584193.  (* 0x67452301 *)
Definition init1 : Z := 4023233417.  (* 0xEFCDAB89 *)
Definition init2 : Z := 2562383102.  (* 0x98BADCFE *)
Definition init3 : Z := 271733878.   (* 0x10325476 *)
Definition init4 : Z := 3285377520.  (* 0xC3D2E1F0 *)

Definition K0 : Z := 1518500249.     (* 0x5A827999 *)
Definition K1 : Z := 1859775393.     (* 0x6ED9EBA1 *)
Definition K2 : Z := 2400959708.     (* 0x8F1BBCDC *)
Definition K3 : Z := 3395469782.     (* 0xCA62C1D6 *)

(** the five chaining words h[0..4] *)
Record digest := mkDigest { h0 : Z; h1 : Z; h2 : Z; h3 : Z; h4 : Z }.

Definition initial : digest := mkDigest init0 init1 init2 init3 init4.

(** big-endian encoding of a word on [n] bytes *)
Fixpoint be_bytes (n : nat) (x : Z) : list Z :=
  match n with
  | O => []
  | S k => Z.land (Z.shiftr x (8 * Z.of_nat k)) 255 :: be_bytes k x
  end.

Definition be_word (b0 b1 b2 b3 : Z) : Z :=
  Z.lor (Z.lor (Z.shiftl b0 24) (Z.shiftl b1 16))
        (Z.lor (Z.shiftl b2 8) b3).

(** the sixteen big-endian words of a 64-byte block *)
Fixpoint words (fuel : nat) (p : list Z) : list Z :=
  match fuel, p with
  | S k, b0 :: b1 :: b2 :: b3 :: rest => be_word b0 b1 b2 b3 :: words k rest
  | _, _ => []
  end.

(** the message schedule: [w[i] = rotl1 (w[i-3] ^ w[i-8] ^ w[i-14] ^ w[i-16])] *)
Fixpoint schedule (n : nat) (w : list Z) : list Z :=
  match n with
  | O => w
  | S k =>
      let i := List.length w in
      let tmp := Z.lxor (Z.lxor (nth (i - 3)%nat w 0) (nth (i - 8)%nat w 0))
                        (Z.lxor (nth (i - 14)%nat w 0) (nth (i - 16)%nat w 0)) in
      schedule k (w ++ [rotl 1 tmp])%list
  end.

Definition round_f (i : nat) (b c d : Z) : Z :=
  if Nat.ltb i 20%nat then Z.lor (Z.land b c) (Z.land (not32 b) d)
  else if Nat.ltb i 40%nat then Z.lxor (Z.lxor b c) d
  else if Nat.ltb i 60%nat then Z.lor (Z.land (Z.lor b c) d) (Z.land b c)
  else Z.lxor (Z.lxor b c) d.

Definition round_k (i : nat) : Z :=
  if Nat.ltb i 20%nat then K0
  else if Nat.ltb i 40%nat then K1
  else if Nat.ltb i 60%nat then K2
  else K3.

Definition round (st : digest) (iw : nat * Z) : digest :=
  let '(i, wi) := iw in
  let t := u32 (rotl 5 (h0 st) + round_f i (h1 st) (h2 st) (h3 st)
                + h4 st + wi + round_k i) in
  mkDigest t (h0 st) (rotl 30 (h1 st)) (h2 st) (h3 st).

(** [blockGeneric] on one 64-byte block *)
Definition block (h : digest) (p : list Z) : digest :=
  let w := schedule 64%nat (words 16%nat p) in
  let r := fold_left round (combine (seq 0%nat 80%nat) w) h in
  mkDigest (u32 (h0 h + h0 r)) (u32 (h1 h + h1 r)) (u32 (h2 h + h2 r))
           (u32 (h3 h + h3 r)) (u32 (h4 h + h4 r)).

(** all complete blocks of the padded message, in order *)
Fixpoint blocks (fuel : nat) (h : digest) (p : list Z) : digest :=
  match fuel with
  | O => h
  | S k =>
      match p with
      | [] => h
      | _ => blocks k (block h (firstn 64%nat p)) (skipn 64%nat p)
      end
  end.

(** [checkSum]: 0x80, zeros up to 56 mod 64, then the bit length on 8 bytes *)
Definition padding (len : Z) : list Z :=
  let r := len mod 64 in
  let n := if r <? 56 then 56 - r else 64 + 56 - r in
  ((128 :: repeat 0 (Z.to_nat (n - 1))) ++ be_bytes 8%nat (u64 (len * 8)))%list.

Definition checkSum (data : list Z) : digest :=
  let p := (data ++ padding (Z.of_nat (List.length data)))%list in
  blocks (S (List.length p)) initial p.

Definition digest_bytes (h : digest) : list Z :=
  (be_bytes 4%nat (h0 h) ++ be_bytes 4%nat (h1 h) ++ be_bytes 4%nat (h2 h)
    ++ be_bytes 4%nat (h3 h) ++ be_bytes 4%nat (h4 h))%list.

(** [h := sha1.New(); h.Write(data); h.Sum(nil)] *)
Definition Sum (data : list Z) : list Z := digest_bytes (checkSum data).

End sha1.

(** ** encoding/hex *)

Module hex.

Local Open Scope Z_scope.

Definition hextable : string := "0123456789abcdef".

Definition digit (n : Z) : ascii :=
  match String.get (Z.to_nat n) hextable with
  | Some c => c
  | None => "0"%char
  end.

(** [hex.EncodeToString]: two lower-case digits per byte *)
Fixpoint EncodeToString (src : list Z) : string :=
  match src with
  | [] => EmptyString
  | v :: rest =>
      String (digit (Z.shiftr v 4))
             (String (digit (Z.land v 15)) (EncodeToString rest))
  end.

End hex.

(** ** hashContent *)

Definition hashContent (content : string) : string :=
  let bytes := sha1.Sum (bytes_of_string content) in
  hex.EncodeToString bytes.

(** ** Data of the collaborators *)

(** A Go [error] is kept as its message. *)
Definition error : Type := string.

(** [time.Time], as a count of nanoseconds. *)
Definition Time : Type := Z.

Definition len (s : string) : nat := String.length s.

Module gofeed.

Module Item.
(** the fields of [gofeed.Item] the package reads *)
Record t := mk {
  Title : string;
  Description : string;
  Link : string;
  Published : string;
  GUID : string
}.
End Item.

Module Feed.
Record t := mk {
  Title : string;
  Items : list Item.t
}.
End Feed.

End gofeed.

Module goose.

Record Article := mkArticle {
  CleanedText : string;
  TopImage : string
}.

End goose.

Module http.

Record Response := mkResponse {
  StatusCode : Z;
  Body : string
}.

End http.

Module goquery.

(** a selection of one element, as [Each] hands it to its callback;
    [Html] is the inner HTML of that element and the render error *)
Record Selection := mkSelection {
  Html : string * option error
}.

(** [Find sel] lists the elements matching [sel], in document order *)
Record Document := mkDocument {
  Find : string -> list Selection
}.

End goquery.

(** What the imported packages answer.  [goose_ExtractFromURL] returns a
    [*goose.Article] next to its error, and the pointer is nil when the page
    cannot be fetched or parsed; [http_Get] follows the contract of net/http
    (a response exactly when the error is nil); [uuid_NewUUID] is the UUID in
    its [String()] form and the error of [uuid.NewUUID]; [time_Now i] is the
    clock as read by the goroutine of item [i]. *)
Record World := mkWorld {
  gofeed_ParseURL : string -> gofeed.Feed.t + error;
  goose_ExtractFromURL : string -> option goose.Article * option error;
  bluemonday_Sanitize : string -> string;
  uuid_NewUUID : string * option error;
  time_Now : nat -> Time;
  http_Get : string -> http.Response + error;
  goquery_NewDocumentFromResponse : http.Response -> goquery.Document + error
}.

(** ** The output record *)

Record RrssFeed := mkRrssFeed {
  Id : string;
  FeedUrl : string;
  FeedTitle : string;
  ItemImage : string;
  ItemTitle : string;
  ItemBody : string;
  ItemUrl : string;
  ItemExtendedBody : string;
  Published : string;
  Created : Time
}.

(** ** Effects of a task

    What a piece of code does besides computing: the lines it logs, the
    article it requests over the network, the pause it takes.  A computation
    either yields a value or stops the whole process. *)

Inductive Arg :=
| AStr (s : string)
| AInt (n : Z)
| AErr (e : error).

Inductive Event :=
| Log (text : string) (args : list Arg)
| Fetch (url : string)
| Sleep (seconds : Z).

Inductive Abort :=
| OsExit             (* log.Fatal: os.Exit(1) *)
| NilDereference     (* runtime panic: field of a nil pointer *)
| IndexOutOfRange.   (* runtime panic: slice index *)

Definition M (A : Type) : Type := list Event * (Abort + A).

Definition ret {A} (a : A) : M A := ([], inr a).

Definition bind {A B} (m : M A) (f : A -> M B) : M B :=
  match m with
  | (es, inl x) => (es, inl x)
  | (es, inr a) => let (es', r) := f a in ((es ++ es')%list, r)
  end.

Definition emit (e : Event) : M unit := ([e], inr tt).

Definition abort {A} (x : Abort) : M A := ([], inl x).

Declare Scope go_scope.
Delimit Scope go_scope with go.

Definition log_Println (text : string) (args : list Arg) : M unit :=
  emit (Log text args).

Definition log_Printf (format : string) (args : list Arg) : M unit :=
  emit (Log format args).

(** [log.Fatal] prints and exits the process *)
Definition log_Fatal {A} (text : string) (args : list Arg) : M A :=
  bind (emit (Log text args)) (fun _ => abort OsExit).

(** [p.f] for a pointer [p] *)
Definition deref {A} (p : option A) : M A :=
  match p with
  | Some a => ret a
  | None => abort NilDereference
  end.

(** [s[i]] *)
Definition index {A} (s : list A) (i : nat) : M A :=
  match nth_error s i with
  | Some a => ret a
  | None => abort IndexOutOfRange
  end.

Definition events {A} (m : M A) : list Event := fst m.
Definition result {A} (m : M A) : Abort + A := snd m.

(** [l[i] = x], nothing out of range *)
Fixpoint update {A} (l : list A) (i : nat) (x : A) : list A :=
  match l, i with
  | [], _ => []
  | _ :: t, O => x :: t
  | h :: t, S k => h :: update t k x
  end.

(** ** The package, over a world *)

Module Import GoNotations.
Notation "x <- m ;; k" := (bind m (fun x => k))
  (at level 61, m at next level, right associativity) : go_scope.
Notation "' p <- m ;; k" := (bind m (fun x => match x with p => k end))
  (at level 61, p pattern, m at next level, right associativity) : go_scope.
Notation "m ;; k" := (bind m (fun _ => k))
  (at level 61, right associativity) : go_scope.
End GoNotations.

Section Package.

Variable w : World.

Local Open Scope go_scope.

(** [p.Sanitize], with [p = bluemonday.UGCPolicy()] *)
Definition Sanitize (s : string) : string := bluemonday_Sanitize w s.

Definition time_Sleep (seconds : Z) : M unit := emit (Sleep seconds).

Definition generateId (item : gofeed.Item.t) : M (string * option error) :=
  if (0 <? len (gofeed.Item.GUID item))%nat then
    log_Println "Using provided GUID as id" [] ;;
    ret (gofeed.Item.GUID item, None)
  else
    let id := hashContent (gofeed.Item.Description item) in
    if (0 <? len id)%nat then
      log_Println "Using hashed content as id" [] ;;
      ret (id, None)
    else
      log_Println "Falling back to generate UUID id" [] ;;
      let '(uuid, err) := uuid_NewUUID w in
      match err with
      | Some e => ret ("", Some e)
      | None => ret (uuid, None)
      end.

Definition extractArticle (url : string)
  : M (option goose.Article * option error) :=
  emit (Fetch url) ;;
  ret (goose_ExtractFromURL w url).

(** The body of the goroutine [go func(i int)] of [Parse], from
    [item := feed.Items[i]] to the record handed to [append]. *)
Definition task (url : string) (feed : gofeed.Feed.t) (i : nat) : M RrssFeed :=
  item <- index (gofeed.Feed.Items feed) i ;;
  ' (id, err) <- generateId item ;;
  match err with
  | Some e => log_Fatal "Failed to generate ID for item" [AErr e]
  | None => ret tt
  end ;;
  let itemUrl := gofeed.Item.Link item in
  ' (itemExtended, itemImage) <-
    (if (0 <? len itemUrl)%nat then
       log_Printf "Fetching extended article for '%s'" [AStr itemUrl] ;;
       ' (article, err) <- extractArticle itemUrl ;;
       match err with
       | Some e => log_Println "" [AErr e]
       | None => ret tt
       end ;;
       a <- deref article ;;
       let itemExtended := goose.CleanedText a in
       a' <- deref article ;;
       let itemImage := goose.TopImage a' in
       time_Sleep 1 ;;
       ret (itemExtended, itemImage)
     else
       log_Printf
         "Item has no link, skip fetching extended (id '%s', title '%s')"
         [AStr id; AStr (gofeed.Item.Title item)] ;;
       ret ("", "")) ;;
  let itemExtended := Sanitize itemExtended in
  let itemDescription := Sanitize (gofeed.Item.Description item) in
  ret {| Id := id;
         FeedUrl := url;
         FeedTitle := gofeed.Feed.Title feed;
         ItemImage := itemImage;
         ItemTitle := "";            (* no ItemTitle key in the literal *)
         ItemBody := itemDescription;
         ItemUrl := gofeed.Item.Link item;
         ItemExtendedBody := itemExtended;
         Published := gofeed.Item.Published item;
         Created := time_Now w i |}.

End Package.

(** ** The goroutines of [Parse] and the shared slice

    [feedItems = append(feedItems, r)] is not one step: the goroutine reads the
    slice [feedItems], builds the longer slice, and writes it back.  No lock
    is held from the read to the write, so a schedule may run one
    goroutine's read or write between another's read and its write.  (The
    goroutines meet at the mutex of the logger, in the log calls before the
    read and after the write, and at [wg.Done] before the return of
    [wg.Wait]; neither lies between a read and its write.)  A schedule is
    the list of the goroutines' indices in the order they take their steps;
    a goroutine that stops the process ends the run at that step. *)

Inductive Pc :=
| Spawned                                     (* go func(i) has not run yet *)
| Built (r : RrssFeed)                        (* the record is built *)
| Loaded (old : list RrssFeed) (r : RrssFeed) (* append has read feedItems *)
| Finished.                                   (* stored, logged, wg.Done() *)

Inductive Access := Read | Write.

Record Process := mkProcess {
  feedItems : list RrssFeed;          (* the shared slice *)
  tasks : list Pc;                    (* one goroutine per item *)
  wg : nat;                           (* the WaitGroup counter *)
  printed : list Event;               (* effects so far, in order *)
  accesses : list (nat * Access);     (* who touched feedItems, in order *)
  crashed : option Abort              (* the process stopped *)
}.

Inductive Outcome :=
| Return (items : list RrssFeed) (err : option error)
| Exit (a : Abort)      (* the process died; Parse returns to nobody *)
| Waiting.              (* the schedule ends with wg.Wait() still blocked *)

Definition is_write (a : Access) : bool :=
  match a with Write => true | Read => false end.

(** two accesses to [feedItems] by different goroutines, one of them a write *)
Definition conflict (a b : nat * Access) : bool :=
  negb (fst a =? fst b)%nat && (is_write (snd a) || is_write (snd b)).

(** some two accesses of the log conflict; the order the logger's mutex
    may put between two appends that do not overlap is not looked at *)
Fixpoint data_race (l : list (nat * Access)) : bool :=
  match l with
  | [] => false
  | a :: t => existsb (conflict a) t || data_race t
  end.

(** [%d] *)
Definition itoa (n : Z) : string := NilZero.string_of_int (Z.to_int n).

Section Orchestrator.

Variable w : World.

Local Open Scope go_scope.

Section Goroutines.

Variable url : string.
Variable feed : gofeed.Feed.t.

Definition sliceLength : nat := List.length (gofeed.Feed.Items feed).

(** the state after [wg.Add(sliceLength)] and the [go] statements *)
Definition spawn : Process :=
  {| feedItems := [];
     tasks := repeat Spawned sliceLength;
     wg := sliceLength;
     printed := [];
     accesses := [];
     crashed := None |}.

(** one step of goroutine [i] *)
Definition step (st : Process) (i : nat) : Process :=
  match crashed st with
  | Some _ => st
  | None =>
      match nth_error (tasks st) i with
      | Some Spawned =>
          match task w url feed i with
          | (es, inl a) =>
              {| feedItems := feedItems st;
                 tasks := tasks st;
                 wg := wg st;
                 printed := (printed st ++ es)%list;
                 accesses := accesses st;
                 crashed := Some a |}
          | (es, inr r) =>
              {| feedItems := feedItems st;
                 tasks := update (tasks st) i (Built r);
                 wg := wg st;
                 printed := (printed st ++ es)%list;
                 accesses := accesses st;
                 crashed := None |}
          end
      | Some (Built r) =>
          {| feedItems := feedItems st;
             tasks := update (tasks st) i (Loaded (feedItems st) r);
             wg := wg st;
             printed := printed st;
             accesses := (accesses st ++ [(i, Read)])%list;
             crashed := None |}
      | Some (Loaded old r) =>
          {| feedItems := (old ++ [r])%list;
             tasks := update (tasks st) i Finished;
             wg := pred (wg st);
             printed :=
               (printed st ++
                [Log "Id=%v : Url=%v : Title=%v Extended (char count)=%v Item no: %d/%d"
                     [AStr (Id r); AStr url; AStr (gofeed.Feed.Title feed);
                      AInt (Z.of_nat (len (ItemExtendedBody r)));
                      AInt (Z.of_nat i); AInt (Z.of_nat sliceLength)]])%list;
             accesses := (accesses st ++ [(i, Write)])%list;
             crashed := None |}
      | Some Finished => st
      | None => st
      end
  end.

Definition run (sched : list nat) : Process := fold_left step sched spawn.

End Goroutines.

(** [Parse url], run under the schedule [sched] *)
Definition Parse (url : string) (sched : list nat) : list Event * Outcome :=
  let received := Log "Received feed url: " [AStr url] in
  match gofeed_ParseURL w url with
  | inr err => ([received; Log err []], Return [] (Some err))
  | inl feed =>
      let st := run url feed sched in
      let started :=
        [received;
         Log "Parsing %v" [AStr (gofeed.Feed.Title feed)];
         Log "Found %v items in feed" [AInt (Z.of_nat (sliceLength feed))]] in
      match crashed st with
      | Some a => ((started ++ printed st)%list, Exit a)
      | None =>
          if (wg st =? 0)%nat then
            ((started ++ printed st ++
              [Log "Parsed %v items in %s"
                   [AInt (Z.of_nat (List.length (feedItems st))); AStr url]])%list,
             Return (feedItems st) None)
          else ((started ++ printed st)%list, Waiting)
      end
  end.

(** ** GetExtendedArticle *)

(** the callback of [Each]: keep the larger of [article] and the sanitized
    inner HTML of [s] *)
Definition pick (article : string) (s : goquery.Selection) : string :=
  let '(articleHtml, _) := goquery.Html s in
  let sanitized := Sanitize w articleHtml in
  if (len article <? len sanitized)%nat then sanitized else article.

Definition GetExtendedArticle (link : string)
  : list Event * (string * option error) :=
  match http_Get w link with
  | inr err => ([], ("", Some err))
  | inl response =>
      let status := http.StatusCode response in
      if ((200 <=? status) && (status <=? 299))%Z then
        match goquery_NewDocumentFromResponse w response with
        | inr err => ([Log "Failed to parse body as HTML" []], ("", Some err))
        | inl doc =>
            let article := fold_left pick (goquery.Find doc "article") "" in
            ([Log "%s responded with status code %d. Body is %d chars long"
                  [AStr link; AInt status; AInt (Z.of_nat (len article))]],
             (article, None))
        end
      else
        ([], ("", Some ("Expected 2XX status code but received '"
                          ++ itoa status ++ "'")))
  end.

End Orchestrator.

(** ** Unsafe markup

    The sanitizer's job is to strip scripts; a string that still holds the
    opening of a script element is the plainest unsafe markup. *)

Fixpoint contains (needle s : string) : bool :=
  String.prefix needle s ||
  match s with
  | EmptyString => false
  | String _ rest => contains needle rest
  end.

Definition has_script (s : string) : bool := contains "<script" s.


(** ** A sample world

    A stand-in policy that deletes every tag, five small feeds, one page
    that cannot be reached, and the links of the stand-alone extractor. *)

Module Sample.

Fixpoint strip (inside : bool) (s : string) : string :=
  match s with
  | EmptyString => EmptyString
  | String c rest =>
      if inside then
        if Ascii.eqb c ">" then strip false rest else strip true rest
      else
        if Ascii.eqb c "<" then strip true rest
        else String c (strip false rest)
  end.

Definition strip_tags (s : string) : string := strip false s.

Definition item_abc : gofeed.Item.t :=
  gofeed.Item.mk "Hi" "<b>hi</b>" "" "Mon, 02 Jan 2006 15:04:05 GMT" "abc".

Definition item_hello1 : gofeed.Item.t :=
  gofeed.Item.mk "First" "Hello world" "" "2006-01-02" "".

Definition item_hello2 : gofeed.Item.t :=
  gofeed.Item.mk "Second" "Hello world" "" "2006-01-03" "".

Definition item_G1 : gofeed.Item.t :=
  gofeed.Item.mk "Third" "anything" "" "2006-01-04" "G1".

Definition item_linked : gofeed.Item.t :=
  gofeed.Item.mk "Story" "teaser" "http://example.org/story" "2006-01-05" "g-story".

Definition item_unreachable : gofeed.Item.t :=
  gofeed.Item.mk "Gone" "teaser" "http://example.org/gone" "2006-01-06" "g-gone".

Definition item_script : gofeed.Item.t :=
  gofeed.Item.mk "Bad" "text" "" "2006-01-07" "<script>alert(1)</script>".

Definition feed_one : gofeed.Feed.t := gofeed.Feed.mk "Example" [item_abc].
Definition feed_two : gofeed.Feed.t :=
  gofeed.Feed.mk "News" [item_hello1; item_G1].
Definition feed_down : gofeed.Feed.t :=
  gofeed.Feed.mk "Down" [item_abc; item_unreachable].
Definition feed_script : gofeed.Feed.t := gofeed.Feed.mk "Bad" [item_script].
Definition feed_story : gofeed.Feed.t := gofeed.Feed.mk "Story" [item_linked].

Definition ParseURL (url : string) : gofeed.Feed.t + error :=
  if String.eqb url "http://example.org/one.xml" then inl feed_one
  else if String.eqb url "http://example.org/two.xml" then inl feed_two
  else if String.eqb url "http://example.org/down.xml" then inl feed_down
  else if String.eqb url "http://example.org/script.xml" then inl feed_script
  else if String.eqb url "http://example.org/story.xml" then inl feed_story
  else inr "no such host".

Definition ExtractFromURL (url : string)
  : option goose.Article * option error :=
  if String.eqb url "http://example.org/story" then
    (Some (goose.mkArticle "<p>The full story</p>" "http://example.org/s.png"),
     None)
  else (None, Some "connection refused").

Definition page : goquery.Document :=
  goquery.mkDocument (fun sel =>
    if String.eqb sel "article" then
      [goquery.mkSelection ("<p>short</p>", None);
       goquery.mkSelection ("<p>the longest one</p>", None);
       goquery.mkSelection ("<i>mid</i>", None)]
    else []).

Definition Get (link : string) : http.Response + error :=
  if String.eqb link "http://example.org/ok" then
    inl (http.mkResponse 200 "<html>...</html>")
  else if String.eqb link "http://example.org/cut" then
    inl (http.mkResponse 200 "<html><arti")
  else if String.eqb link "http://example.org/missing" then
    inl (http.mkResponse 404 "not found")
  else inr "connection refused".

Definition NewDocumentFromResponse (r : http.Response)
  : goquery.Document + error :=
  if String.eqb (http.Body r) "<html>...</html>" then inl page
  else inr "unexpected EOF".

(** the records the tasks of these feeds build *)
Definition record_abc : RrssFeed :=
  mkRrssFeed "abc" "http://example.org/one.xml" "Example" "" "" "hi" "" ""
             "Mon, 02 Jan 2006 15:04:05 GMT" 1136214245000000000%Z.

Definition record_story : RrssFeed :=
  mkRrssFeed "g-story" "http://example.org/story.xml" "Story"
             "http://example.org/s.png" "" "teaser"
             "http://example.org/story" "The full story"
             "2006-01-05" 1136214245000000000%Z.

Definition record_hello1 : RrssFeed :=
  mkRrssFeed "7b502c3a1f48c8609ae212cdfb639dee39673f5e"
             "http://example.org/two.xml" "News" "" "" "Hello world" "" ""
             "2006-01-02" 1136214245000000000%Z.

Definition record_G1 : RrssFeed :=
  mkRrssFeed "G1" "http://example.org/two.xml" "News" "" "" "anything" "" ""
             "2006-01-04" 1136214245000000001%Z.


Definition world : World :=
  {| gofeed_ParseURL := ParseURL;
     goose_ExtractFromURL := ExtractFromURL;
     bluemonday_Sanitize := strip_tags;
     uuid_NewUUID := ("6ba7b810-9dad-11d1-80b4-00c04fd430c8", None);
     time_Now := fun i => (1136214245000000000 + Z.of_nat i)%Z;
     http_Get := Get;
     goquery_NewDocumentFromResponse := NewDocumentFromResponse |}.

End Sample.

(** ** Reading a record against its item *)

(** the id [generateId] settles on *)
Definition item_id (item : gofeed.Item.t) : string :=
  if (0 <? len (gofeed.Item.GUID item))%nat then gofeed.Item.GUID item
  else hashContent (gofeed.Item.Description item).

(** the fields of [r] that [Parse] copies from [url], [feed] and [item] *)
Definition copied (url : string) (feed : gofeed.Feed.t)
           (item : gofeed.Item.t) (r : RrssFeed) : Prop :=
  Id r = item_id item /\
  FeedUrl r = url /\
  FeedTitle r = gofeed.Feed.Title feed /\
  ItemUrl r = gofeed.Item.Link item /\
  Published r = gofeed.Item.Published item.

(** what the article step leaves in [r]: nothing for an item without link,
    the extracted text (sanitized) and image otherwise *)
Definition enriched (w : World) (item : gofeed.Item.t) (r : RrssFeed) : Prop :=
  (gofeed.Item.Link item = "" /\
   ItemExtendedBody r = Sanitize w "" /\ ItemImage r = "") \/
  (gofeed.Item.Link item <> "" /\
   exists a : goose.Article,
     fst (goose_ExtractFromURL w (gofeed.Item.Link item)) = Some a /\
     ItemExtendedBody r = Sanitize w (goose.CleanedText a) /\
     ItemImage r = goose.TopImage a).

(** ** Two schedules *)

(** the goroutines run one after the other, each to its end *)
Definition serial (n : nat) : list nat :=
  flat_map (fun i => [i; i; i]) (seq 0 n).

(** every goroutine builds, then every goroutine reads [feedItems], then
    every goroutine writes it *)
Definition lockstep (n : nat) : list nat :=
  (seq 0 n ++ seq 0 n ++ seq 0 n)%list.

(** the record of task [i], if it builds one *)
Definition built_by (w : World) (url : string) (feed : gofeed.Feed.t)
           (i : nat) : list RrssFeed :=
  match result (task w url feed i) with
  | inr r => [r]
  | inl _ => []
  end.

(** the records of the first [n] tasks, in the order of the items *)
Definition outputs (w : World) (url : string) (feed : gofeed.Feed.t)
           (n : nat) : list RrssFeed :=
  flat_map (built_by w url feed) (seq 0 n).

(** the record of task [i]; the zero value where the task builds none *)
Definition record_of (w : World) (url : string) (feed : gofeed.Feed.t)
           (i : nat) : RrssFeed :=
  match result (task w url feed i) with
  | inr r => r
  | inl _ => mkRrssFeed "" "" "" "" "" "" "" "" "" 0%Z
  end.

(** [n] goroutines of which the first [k] are at [after], the others at
    [before] *)
Definition sweep (after before : nat -> Pc) (k n : nat) : list Pc :=
  (map after (seq 0 k) ++ map before (seq k (n - k)))%list.

(** ** The records of a process *)

(** the records a goroutine holds in its locals *)
Definition held (pc : Pc) : list RrssFeed :=
  match pc with
  | Spawned => []
  | Built r => [r]
  | Loaded old r => (old ++ [r])%list
  | Finished => []
  end.

(** every record there is: the shared slice and the goroutines' locals *)
Definition records (st : Process) : list RrssFeed :=
  (feedItems st ++ flat_map held (tasks st))%list.

Definition is_finished (pc : Pc) : bool :=
  match pc with Finished => true | _ => false end.

(** the goroutines that have called [wg.Done] *)
Definition finished (st : Process) : nat :=
  List.length (filter is_finished (tasks st)).

(** ** Reading the trace and the goroutines of a run *)

Definition is_fetch (e : Event) : bool :=
  match e with
  | Fetch _ => true
  | _ => false
  end.

(** the request the goroutine of item [i] makes: one for the link of the
    item when it has one, none otherwise *)
Definition fetches_of (feed : gofeed.Feed.t) (i : nat) : list Event :=
  match nth_error (gofeed.Feed.Items feed) i with
  | Some item =>
      if (0 <? len (gofeed.Item.Link item))%nat
      then [Fetch (gofeed.Item.Link item)]
      else []
  | None => []
  end.

(** the steps a goroutine has taken, out of three *)
Definition progress (pc : Pc) : nat :=
  match pc with
  | Spawned => 0
  | Built _ => 1
  | Loaded _ _ => 2
  | Finished => 3
  end.


(** ** Classes of schedules *)

(** the goroutines of [order] run one after the other, each to its end *)
Definition serial_in (order : list nat) : list nat :=
  flat_map (fun i => [i; i; i]) order.

(** the goroutines a schedule starts: the indices below [n], each at its
    first place in the schedule, those of [seen] left out *)
Fixpoint first_steps (n : nat) (seen sched : list nat) : list nat :=
  match sched with
  | [] => []
  | i :: rest =>
      if (i <? n)%nat && negb (existsb (Nat.eqb i) seen)
      then i :: first_steps n (i :: seen) rest
      else first_steps n seen rest
  end.

(** no goroutine reads [feedItems] once a goroutine has written it *)
Fixpoint reads_first (l : list (nat * Access)) : bool :=
  match l with
  | [] => true
  | (_, Read) :: rest => reads_first rest
  | (_, Write) :: rest => forallb (fun a => is_write (snd a)) rest
  end.

(** the goroutine whose write of [feedItems] is the last one *)
Fixpoint last_write (l : list (nat * Access)) : option nat :=
  match l with
  | [] => None
  | (i, a) :: rest =>
      match last_write rest with
      | Some k => Some k
      | None => if is_write a then Some i else None
      end
  end.

(** * Properties *)

Local Open Scope nat_scope.

(** ** The digest *)

Example hashContent_empty :
  hashContent "" = "da39a3ee5e6b4b0d3255bfef95601890afd80709".
Proof. vm_compute. reflexivity. Qed.

Example hashContent_abc :
  hashContent "abc" = "a9993e364706816aba3e25717850c26c9cd0d89d".
Proof. vm_compute. reflexivity. Qed.

Example hashContent_two_blocks :
  hashContent "abcdbcdecdefdefgefghfghighijhijkijkljklmklmnlmnomnopnopq"
  = "84983e441c3bd26ebaae4aa1f95129e5e54670f1".
Proof. vm_compute. reflexivity. Qed.

Lemma be_bytes_length (n : nat) (x : Z) : List.length (sha1.be_bytes n x) = n.
Proof. induction n as [|n IH]; simpl; [reflexivity | now rewrite IH]. Qed.

Lemma digest_bytes_length (h : sha1.digest) :
  List.length (sha1.digest_bytes h) = sha1.Size.
Proof.
  unfold sha1.digest_bytes.
  rewrite !length_app, !be_bytes_length. reflexivity.
Qed.

(** Whatever is hashed, the digest has 20 bytes. *)
Lemma Sum_length (data : list Z) : List.length (sha1.Sum data) = sha1.Size.
Proof. unfold sha1.Sum. apply digest_bytes_length. Qed.

Lemma EncodeToString_len (src : list Z) :
  len (hex.EncodeToString src) = 2 * List.length src.
Proof.
  unfold len.
  induction src as [|v rest IH]; [reflexivity |].
  cbn [hex.EncodeToString String.length List.length]. rewrite IH. lia.
Qed.

Lemma hashContent_len (content : string) : len (hashContent content) = 40.
Proof.
  unfold hashContent. rewrite EncodeToString_len, Sum_length. reflexivity.
Qed.

Lemma len_pos_iff (s : string) : (0 <? len s) = true <-> s <> "".
Proof.
  destruct s as [|c s]; cbn; split; intro H.
  - discriminate.
  - now elim H.
  - discriminate.
  - reflexivity.
Qed.

Lemma len_zero_iff (s : string) : (0 <? len s) = false <-> s = "".
Proof.
  destruct s as [|c s]; cbn; split; intro H;
    [reflexivity | reflexivity | discriminate | discriminate].
Qed.

(** ** generateId *)

(** The two branches [generateId] can take, with what each logs. *)
Lemma generateId_eq (w : World) (item : gofeed.Item.t) :
  generateId w item =
  if (0 <? len (gofeed.Item.GUID item)) then
    ([Log "Using provided GUID as id" []], inr (gofeed.Item.GUID item, None))
  else
    ([Log "Using hashed content as id" []],
     inr (hashContent (gofeed.Item.Description item), None)).
Proof.
  unfold generateId.
  destruct (0 <? len (gofeed.Item.GUID item)); [reflexivity |].
  rewrite hashContent_len. reflexivity.
Qed.

(** C4 -- identity precedence.  An item that carries a GUID gets exactly that
    GUID as id, whatever its description; an item without one gets the
    hex-encoded SHA-1 digest of its description, 40 characters long; two items
    without a GUID and with the same description get the same id. *)
Theorem generateId_precedence (w : World) (a b : gofeed.Item.t) :
  (gofeed.Item.GUID a <> "" ->
   result (generateId w a) = inr (gofeed.Item.GUID a, None)) /\
  (gofeed.Item.GUID a = "" ->
   result (generateId w a)
   = inr (hex.EncodeToString
            (sha1.Sum (bytes_of_string (gofeed.Item.Description a))), None)
   /\ List.length (sha1.Sum (bytes_of_string (gofeed.Item.Description a))) = 20
   /\ len (hex.EncodeToString
             (sha1.Sum (bytes_of_string (gofeed.Item.Description a)))) = 40) /\
  (gofeed.Item.GUID a = "" -> gofeed.Item.GUID b = "" ->
   gofeed.Item.Description a = gofeed.Item.Description b ->
   result (generateId w a) = result (generateId w b)).
Proof.
  split; [| split].
  - intro H. apply len_pos_iff in H.
    rewrite generateId_eq, H. reflexivity.
  - intro H. apply len_zero_iff in H. split; [| split].
    + rewrite generateId_eq, H. reflexivity.
    + apply Sum_length.
    + apply (hashContent_len (gofeed.Item.Description a)).
  - intros Ha Hb Hd.
    rewrite !generateId_eq.
    apply len_zero_iff in Ha, Hb. rewrite Ha, Hb, Hd. reflexivity.
Qed.

Lemma generateId_precedence_witness :
  result (generateId Sample.world Sample.item_G1) = inr ("G1", None) /\
  result (generateId Sample.world Sample.item_hello1)
  = inr ("7b502c3a1f48c8609ae212cdfb639dee39673f5e", None) /\
  result (generateId Sample.world Sample.item_hello1)
  = result (generateId Sample.world Sample.item_hello2).
Proof.
  split; [| split].
  - apply (proj1 (generateId_precedence Sample.world Sample.item_G1
                    Sample.item_G1)).
    simpl. discriminate.
  - apply (proj1 (proj2 (generateId_precedence Sample.world Sample.item_hello1
                           Sample.item_hello2))).
    reflexivity.
  - apply (proj2 (proj2 (generateId_precedence Sample.world Sample.item_hello1
                           Sample.item_hello2))); reflexivity.
Defined.

(** ** The task of one item *)

Arguments hashContent : simpl never.

Lemma generateId_item_id (w : World) (item : gofeed.Item.t) :
  result (generateId w item) = inr (item_id item, None).
Proof.
  rewrite generateId_eq. unfold item_id.
  destruct (0 <? len (gofeed.Item.GUID item)); reflexivity.
Qed.

(** Every record a task builds, read field by field. *)
Lemma task_built (w : World) (url : string) (feed : gofeed.Feed.t)
      (i : nat) (r : RrssFeed) :
  result (task w url feed i) = inr r ->
  exists item,
    nth_error (gofeed.Feed.Items feed) i = Some item /\
    copied url feed item r /\
    ItemTitle r = "" /\
    ItemBody r = Sanitize w (gofeed.Item.Description item) /\
    Created r = time_Now w i /\
    enriched w item r.
Proof.
  unfold task, index.
  destruct (nth_error (gofeed.Feed.Items feed) i) as [item|] eqn:Hi;
    [| discriminate].
  intro H. exists item. split; [reflexivity |].
  revert H. cbn [bind ret]. rewrite generateId_eq.
  unfold copied, enriched, item_id, extractArticle.
  destruct (0 <? len (gofeed.Item.GUID item));
    (destruct (0 <? len (gofeed.Item.Link item)) eqn:Hl;
     [ apply len_pos_iff in Hl;
       destruct (goose_ExtractFromURL w (gofeed.Item.Link item))
         as [[a|] [e|]] eqn:Hx; cbn; intro H; inversion H; subst; clear H; cbn;
       repeat split; try reflexivity; right; split; try assumption;
       exists a; repeat split; reflexivity
     | apply len_zero_iff in Hl; cbn; intro H; inversion H; subst; clear H;
       cbn; repeat split; try reflexivity; left; repeat split;
       try assumption; reflexivity ]).
Qed.

(** A task stops the process only on a slice index or on a nil article;
    it never reaches [log.Fatal]. *)
Lemma task_aborts (w : World) (url : string) (feed : gofeed.Feed.t)
      (i : nat) (a : Abort) :
  result (task w url feed i) = inl a ->
  (a = IndexOutOfRange /\ nth_error (gofeed.Feed.Items feed) i = None) \/
  (a = NilDereference /\
   exists item,
     nth_error (gofeed.Feed.Items feed) i = Some item /\
     gofeed.Item.Link item <> "" /\
     fst (goose_ExtractFromURL w (gofeed.Item.Link item)) = None).
Proof.
  unfold task, index.
  destruct (nth_error (gofeed.Feed.Items feed) i) as [item|] eqn:Hi.
  2:{ cbn. intro H. inversion H. left. split; reflexivity. }
  cbn [bind ret]. rewrite generateId_eq. unfold extractArticle.
  destruct (0 <? len (gofeed.Item.GUID item));
    (destruct (0 <? len (gofeed.Item.Link item)) eqn:Hl;
     [ apply len_pos_iff in Hl;
       destruct (goose_ExtractFromURL w (gofeed.Item.Link item))
         as [[x|] [e|]] eqn:Hx; cbn; intro H; inversion H; subst; clear H;
       right; (split; [reflexivity |]); exists item;
       repeat split; try assumption; rewrite ?Hx; reflexivity
     | cbn; intro H; inversion H ]).
Qed.

(** ** Runs *)

Section Runs.

Variable w : World.
Variable url : string.
Variable feed : gofeed.Feed.t.

Lemma run_invariant (I : Process -> Prop) :
  I (spawn feed) ->
  (forall st i, I st -> I (step w url feed st i)) ->
  forall sched, I (run w url feed sched).
Proof.
  intros H0 Hstep sched. unfold run.
  generalize dependent (spawn feed).
  induction sched as [|i sched IH]; intros st Hst; cbn; [exact Hst |].
  apply IH, Hstep, Hst.
Qed.

Lemma run_app (s1 s2 : list nat) :
  run w url feed (s1 ++ s2)
  = fold_left (step w url feed) s2 (run w url feed s1).
Proof. unfold run. apply fold_left_app. Qed.

Lemma In_update_held (l : list Pc) (i : nat) (pc : Pc) (r : RrssFeed) :
  In r (flat_map held (update l i pc)) ->
  In r (held pc) \/ In r (flat_map held l).
Proof.
  revert i. induction l as [|h t IH]; intros [|i]; cbn; auto;
    rewrite !in_app_iff.
  - tauto.
  - intros [H | H]; [tauto |]. destruct (IH i H); tauto.
Qed.

Lemma held_nth (l : list Pc) (i : nat) (pc : Pc) (r : RrssFeed) :
  nth_error l i = Some pc -> In r (held pc) -> In r (flat_map held l).
Proof.
  intros Hn Hr. apply in_flat_map. exists pc.
  split; [eapply nth_error_In; eassumption | assumption].
Qed.

(** A step brings in no record but the one its task has just built. *)
Lemma step_records (st : Process) (i : nat) (r : RrssFeed) :
  In r (records (step w url feed st i)) ->
  In r (records st) \/ result (task w url feed i) = inr r.
Proof.
  unfold step, records.
  destruct (crashed st); [auto |].
  destruct (nth_error (tasks st) i) as [[| r0 | old r0 |]|] eqn:Hn; auto.
  - destruct (task w url feed i) as [es [a | r1]] eqn:Ht; cbn; auto.
    rewrite !in_app_iff. intros [H | H]; [auto |].
    apply In_update_held in H. cbn in H.
    destruct H as [[H | []] | H]; [right | left]; [now subst | auto].
  - cbn. rewrite !in_app_iff. intros [H | H]; [auto |].
    apply In_update_held in H. cbn [held] in H. rewrite in_app_iff in H.
    left. destruct H as [[H | H] | H]; auto.
    right. eapply held_nth; [eassumption |]. exact H.
  - cbn. rewrite !in_app_iff. intros [[H | H] | H]; left; right.
    + eapply held_nth; [eassumption |]. cbn. rewrite in_app_iff. auto.
    + eapply held_nth; [eassumption |]. cbn. rewrite in_app_iff. auto.
    + apply In_update_held in H. destruct H as [[] | H]. exact H.
Qed.

(** Every record of a run was built by one of the tasks. *)
Lemma run_records (sched : list nat) (r : RrssFeed) :
  In r (records (run w url feed sched)) ->
  exists i, result (task w url feed i) = inr r.
Proof.
  revert r. apply run_invariant with
    (I := fun st => forall r, In r (records st) ->
                    exists i, result (task w url feed i) = inr r).
  - unfold records, spawn. cbn. intros r H.
    apply in_flat_map in H. destruct H as [pc [Hpc Hr]].
    apply repeat_spec in Hpc. subst pc. destruct Hr.
  - intros st i IH r H. apply step_records in H.
    destruct H as [H | H]; [auto | eauto].
Qed.

(** A run stops the process only where a task does. *)
Lemma run_crashed (sched : list nat) (a : Abort) :
  crashed (run w url feed sched) = Some a ->
  exists i, result (task w url feed i) = inl a.
Proof.
  revert a. apply run_invariant with
    (I := fun st => forall a, crashed st = Some a ->
                    exists i, result (task w url feed i) = inl a).
  - cbn. discriminate.
  - intros st i IH a. unfold step.
    destruct (crashed st) eqn:Hc; [rewrite Hc; auto |].
    destruct (nth_error (tasks st) i) as [[| r0 | old r0 |]|];
      try (cbn; rewrite ?Hc; discriminate).
    destruct (task w url feed i) as [es [x | r1]] eqn:Ht; cbn;
      [| discriminate].
    intro H. inversion H. subst. exists i. unfold result. now rewrite Ht.
Qed.

End Runs.

(** What [Parse] returns without error is the shared slice at the end of
    the run, and each of its records was built by the task of some item. *)
Lemma Parse_returns (w : World) (url : string) (sched : list nat)
      (items : list RrssFeed) (err : option error) :
  snd (Parse w url sched) = Return items err ->
  (exists e, gofeed_ParseURL w url = inr e /\ items = [] /\ err = Some e) \/
  (exists feed,
     gofeed_ParseURL w url = inl feed /\ err = None /\
     items = feedItems (run w url feed sched) /\
     wg (run w url feed sched) = 0 /\
     crashed (run w url feed sched) = None).
Proof.
  unfold Parse.
  destruct (gofeed_ParseURL w url) as [feed | e].
  - destruct (crashed (run w url feed sched)) eqn:Hc; [discriminate |].
    destruct (wg (run w url feed sched) =? 0) eqn:Hw; [| discriminate].
    cbn. intro H. inversion H. subst. right. exists feed.
    apply Nat.eqb_eq in Hw. auto.
  - cbn. intro H. inversion H. subst. left. exists e. auto.
Qed.

Lemma Parse_records (w : World) (url : string) (sched : list nat)
      (items : list RrssFeed) (err : option error) (r : RrssFeed) :
  snd (Parse w url sched) = Return items err ->
  In r items ->
  exists feed i,
    gofeed_ParseURL w url = inl feed /\
    result (task w url feed i) = inr r.
Proof.
  intros H Hr. apply Parse_returns in H.
  destruct H as [[e [_ [Hi _]]] | [feed [Hf [_ [Hi _]]]]].
  - subst. destruct Hr.
  - subst. exists feed.
    destruct (run_records w url feed sched r) as [i Hi].
    + unfold records. apply in_app_iff. auto.
    + exists i. auto.
Qed.

(** C9 -- [generateId] is total and never fails.  It always returns a
    non-empty id and a nil error, because the hex-encoded SHA-1 digest has 40
    characters for every description; it never falls back to [uuid.NewUUID]
    (nothing of the world reaches its result or its log), so the task never
    reaches [log.Fatal] and no run of [Parse] ends in [os.Exit]. *)
Theorem generateId_total (w : World) (item : gofeed.Item.t) :
  (exists id, result (generateId w item) = inr (id, None) /\ id <> "") /\
  (forall content, len (hashContent content) = 40) /\
  (forall w', generateId w' item = generateId w item) /\
  ~ In (Log "Falling back to generate UUID id" [])
       (events (generateId w item)) /\
  (forall url feed i, result (task w url feed i) <> inl OsExit) /\
  (forall url sched, snd (Parse w url sched) <> Exit OsExit).
Proof.
  assert (Htask : forall url feed i, result (task w url feed i) <> inl OsExit).
  { intros url feed i H. apply task_aborts in H.
    destruct H as [[H _] | [H _]]; discriminate. }
  split; [| split; [| split; [| split; [| split]]]].
  - exists (item_id item). split; [apply generateId_item_id |].
    unfold item_id.
    destruct (0 <? len (gofeed.Item.GUID item)) eqn:Hg.
    + now apply len_pos_iff.
    + apply len_pos_iff. now rewrite hashContent_len.
  - apply hashContent_len.
  - intro w'. now rewrite !generateId_eq.
  - rewrite generateId_eq.
    destruct (0 <? len (gofeed.Item.GUID item)); cbn;
      intros [H | []]; discriminate.
  - exact Htask.
  - intros url sched. unfold Parse.
    destruct (gofeed_ParseURL w url) as [feed | e]; [| discriminate].
    destruct (crashed (run w url feed sched)) as [a |] eqn:Hc.
    + cbn. intro H. inversion H. subst.
      destruct (run_crashed w url feed sched OsExit Hc) as [i Hi].
      exact (Htask url feed i Hi).
    + destruct (wg (run w url feed sched) =? 0); discriminate.
Qed.

(** C10 -- every record [Parse] returns has an empty [ItemTitle]: the
    record literal has no [ItemTitle] key, so the item's title is never
    copied. *)
Theorem Parse_ItemTitle_empty (w : World) (url : string) (sched : list nat)
        (items : list RrssFeed) (err : option error) (r : RrssFeed) :
  snd (Parse w url sched) = Return items err ->
  In r items ->
  ItemTitle r = "".
Proof.
  intros H Hr.
  destruct (Parse_records w url sched items err r H Hr) as [feed [i [_ Ht]]].
  apply task_built in Ht.
  destruct Ht as [item [_ [_ [Ht _]]]]. exact Ht.
Qed.

Lemma Parse_ItemTitle_empty_witness :
  snd (Parse Sample.world "http://example.org/story.xml" [0; 0; 0])
  = Return [Sample.record_story] None /\
  gofeed.Item.Title Sample.item_linked = "Story" /\
  ItemTitle Sample.record_story = "".
Proof.
  split; [vm_compute; reflexivity |]. split; [reflexivity |].
  apply (Parse_ItemTitle_empty Sample.world "http://example.org/story.xml"
           [0; 0; 0] [Sample.record_story] None Sample.record_story).
  - vm_compute. reflexivity.
  - left. reflexivity.
Defined.

(** C6 -- an item with an empty link.  Its task fetches nothing, and its
    record has an empty extended body and an empty image (the sanitizer
    leaving the empty string empty), next to the id of the item and its
    sanitized description; in what [Parse] returns, a record without link has
    neither extended body nor image. *)
Theorem empty_link_skips_fetch (w : World) (Hempty : Sanitize w "" = "") :
  (forall url feed i item,
     nth_error (gofeed.Feed.Items feed) i = Some item ->
     gofeed.Item.Link item = "" ->
     exists r,
       result (task w url feed i) = inr r /\
       Id r = item_id item /\
       ItemBody r = Sanitize w (gofeed.Item.Description item) /\
       ItemExtendedBody r = "" /\
       ItemImage r = "" /\
       forall u, ~ In (Fetch u) (events (task w url feed i))) /\
  (forall url sched items err r,
     snd (Parse w url sched) = Return items err ->
     In r items ->
     ItemUrl r = "" ->
     ItemExtendedBody r = "" /\ ItemImage r = "").
Proof.
  split.
  - intros url feed i item Hi Hl.
    unfold task, index. rewrite Hi. cbn [bind ret].
    rewrite generateId_eq. unfold item_id. rewrite Hl.
    destruct (0 <? len (gofeed.Item.GUID item)); cbn;
      (eexists; split; [reflexivity |]); cbn;
      repeat split; try exact Hempty;
      intros u [H | [H | []]]; discriminate.
  - intros url sched items err r H Hr Hu.
    destruct (Parse_records w url sched items err r H Hr) as [feed [i [_ Ht]]].
    apply task_built in Ht.
    destruct Ht as [item [_ [Hc [_ [_ [_ He]]]]]].
    destruct Hc as [_ [_ [_ [Hlink _]]]].
    destruct He as [[_ [Hx Him]] | [Hl _]].
    + rewrite Hx, Him. auto.
    + elim Hl. congruence.
Qed.

Lemma empty_link_skips_fetch_witness :
  exists r,
    result (task Sample.world "http://example.org/one.xml" Sample.feed_one 0)
    = inr r /\
    Id r = "abc" /\
    ItemBody r = Sanitize Sample.world "<b>hi</b>" /\
    ItemExtendedBody r = "" /\
    ItemImage r = "" /\
    forall u,
      ~ In (Fetch u)
           (events (task Sample.world "http://example.org/one.xml"
                         Sample.feed_one 0)).
Proof.
  apply (proj1 (empty_link_skips_fetch Sample.world eq_refl)
           "http://example.org/one.xml" Sample.feed_one 0 Sample.item_abc);
    reflexivity.
Defined.

(** ** Counting the goroutines *)

Lemma update_length {A} (l : list A) (i : nat) (x : A) :
  List.length (update l i x) = List.length l.
Proof.
  revert i. induction l as [|h t IH]; intros [|i]; cbn; auto.
Qed.

Lemma nth_error_update_eq {A} (l : list A) (i : nat) (x y : A) :
  nth_error l i = Some y -> nth_error (update l i x) i = Some x.
Proof.
  revert i. induction l as [|h t IH]; intros [|i]; cbn;
    try discriminate; auto.
Qed.

Lemma nth_error_update_neq {A} (l : list A) (i j : nat) (x : A) :
  i <> j -> nth_error (update l i x) j = nth_error l j.
Proof.
  revert i j. induction l as [|h t IH]; intros [|i] [|j] H; cbn; auto.
  now elim H.
Qed.

Lemma count_update {A} (f : A -> bool) (l : list A) (i : nat) (x y : A) :
  nth_error l i = Some y ->
  List.length (filter f (update l i x)) + (if f y then 1 else 0)
  = List.length (filter f l) + (if f x then 1 else 0).
Proof.
  revert i. induction l as [|h t IH]; intros [|i]; cbn; try discriminate.
  - intro H. inversion H. subst.
    destruct (f x), (f y); cbn; lia.
  - intro H. specialize (IH i H). destruct (f h); cbn; lia.
Qed.

Lemma count_lt {A} (f : A -> bool) (l : list A) (i : nat) (y : A) :
  nth_error l i = Some y -> f y = false ->
  List.length (filter f l) < List.length l.
Proof.
  revert i. induction l as [|h t IH]; intros [|i]; cbn; try discriminate.
  - intros H Hy. inversion H. subst. rewrite Hy.
    pose proof (filter_length_le f t). lia.
  - intros H Hy. specialize (IH i H Hy). destruct (f h); cbn; lia.
Qed.

Lemma filter_repeat_Spawned (n : nat) :
  filter is_finished (repeat Spawned n) = [].
Proof. induction n as [|n IH]; cbn; auto. Qed.

Section Counting.

Variable w : World.
Variable url : string.
Variable feed : gofeed.Feed.t.

(** The WaitGroup counter is the number of goroutines still to finish. *)
Lemma run_counter (sched : list nat) :
  List.length (tasks (run w url feed sched)) = sliceLength feed /\
  wg (run w url feed sched) + finished (run w url feed sched)
  = sliceLength feed.
Proof.
  apply run_invariant with
    (I := fun st => List.length (tasks st) = sliceLength feed /\
                    wg st + finished st = sliceLength feed).
  - unfold finished. cbn.
    rewrite repeat_length, filter_repeat_Spawned. cbn. lia.
  - intros st i [Hlen Hwg]. unfold step, finished in *.
    destruct (crashed st); [auto |].
    destruct (nth_error (tasks st) i) as [[| r0 | old r0 |]|] eqn:Hn; auto.
    + destruct (task w url feed i) as [es [a | r1]]; cbn; auto.
      rewrite update_length. split; [assumption |].
      pose proof (count_update is_finished _ _ (Built r1) _ Hn) as Hc.
      cbn in Hc. lia.
    + cbn. rewrite update_length. split; [assumption |].
      pose proof (count_update is_finished _ _
                    (Loaded (feedItems st) r0) _ Hn) as Hc.
      cbn in Hc. lia.
    + cbn. rewrite update_length. split; [assumption |].
      pose proof (count_update is_finished _ _ Finished _ Hn) as Hc.
      pose proof (count_lt is_finished _ _ _ Hn eq_refl) as Hlt.
      cbn in Hc. lia.
Qed.

(** When [wg.Wait] returns, every goroutine has finished. *)
Lemma run_all_finished (sched : list nat) (i : nat) :
  wg (run w url feed sched) = 0 ->
  i < sliceLength feed ->
  nth_error (tasks (run w url feed sched)) i = Some Finished.
Proof.
  intros Hwg Hi.
  destruct (run_counter sched) as [Hlen Hcount].
  destruct (nth_error (tasks (run w url feed sched)) i) as [pc|] eqn:Hn.
  - destruct pc; try reflexivity;
      pose proof (count_lt is_finished _ _ _ Hn eq_refl) as Hlt;
      unfold finished in Hcount; lia.
  - apply nth_error_None in Hn. lia.
Qed.

(** A task that stops the process is still to run as long as the process
    lives. *)
Lemma run_pending (sched : list nat) (i : nat) (a : Abort) :
  result (task w url feed i) = inl a ->
  i < sliceLength feed ->
  crashed (run w url feed sched) = None ->
  nth_error (tasks (run w url feed sched)) i = Some Spawned.
Proof.
  intros Ha Hi.
  apply run_invariant with
    (I := fun st => crashed st = None ->
                    nth_error (tasks st) i = Some Spawned).
  - intros _. cbn. apply nth_error_repeat. exact Hi.
  - intros st j IH. unfold step.
    destruct (crashed st) eqn:Hc; [rewrite Hc; discriminate |].
    specialize (IH eq_refl).
    destruct (Nat.eq_dec j i) as [-> | Hne].
    + rewrite IH.
      destruct (task w url feed i) as [es [x | r1]]; cbn in *;
        discriminate.
    + destruct (nth_error (tasks st) j) as [[| r0 | old r0 |]|]; auto;
        try (cbn; rewrite nth_error_update_neq by exact Hne; auto).
      destruct (task w url feed j) as [es [x | r1]]; cbn; auto.
      rewrite nth_error_update_neq by exact Hne. auto.
Qed.

End Counting.

(** Once the article of one item cannot be dereferenced, no schedule lets
    [Parse] return. *)
Lemma Parse_dies_with_task (w : World) (url : string) (feed : gofeed.Feed.t)
      (i : nat) (a : Abort) (sched : list nat)
      (items : list RrssFeed) (err : option error) :
  gofeed_ParseURL w url = inl feed ->
  i < sliceLength feed ->
  result (task w url feed i) = inl a ->
  snd (Parse w url sched) <> Return items err.
Proof.
  intros Hf Hi Ha H. apply Parse_returns in H.
  destruct H as [[e [He _]] | [feed' [Hf' [_ [_ [Hwg Hc]]]]]]; [congruence |].
  assert (feed' = feed) by congruence. subst feed'.
  pose proof (run_pending w url feed sched i a Ha Hi Hc) as Hp.
  pose proof (run_all_finished w url feed sched i Hwg Hi) as Hfin.
  congruence.
Qed.

(** A link whose page cannot be fetched: the article is nil and the task
    panics on [article.CleanedText]. *)
Lemma task_nil_article (w : World) (url : string) (feed : gofeed.Feed.t)
      (i : nat) (item : gofeed.Item.t) (e : option error) :
  nth_error (gofeed.Feed.Items feed) i = Some item ->
  gofeed.Item.Link item <> "" ->
  goose_ExtractFromURL w (gofeed.Item.Link item) = (None, e) ->
  result (task w url feed i) = inl NilDereference.
Proof.
  intros Hi Hl Hx. apply len_pos_iff in Hl.
  unfold task, index. rewrite Hi. cbn [bind ret].
  rewrite generateId_eq. unfold extractArticle. rewrite Hl, Hx.
  destruct (0 <? len (gofeed.Item.GUID item)); destruct e; reflexivity.
Qed.

(** ** The serial schedule *)

Lemma update_update {A} (l : list A) (i : nat) (x y : A) :
  update (update l i x) i y = update l i y.
Proof.
  revert i. induction l as [|h t IH]; intros [|i]; cbn; auto.
  now rewrite IH.
Qed.

Lemma update_after_repeat {A} (a x y : A) (k : nat) (l : list A) :
  update (repeat a k ++ x :: l) k y = (repeat a k ++ y :: l)%list.
Proof. induction k as [|k IH]; cbn; [reflexivity | now rewrite IH]. Qed.

Lemma repeat_snoc {A} (a : A) (n : nat) :
  (repeat a n ++ [a])%list = repeat a (S n).
Proof. induction n as [|n IH]; cbn; [reflexivity | now rewrite IH]. Qed.

Section Serial.

Variable w : World.
Variable url : string.
Variable feed : gofeed.Feed.t.

Lemma step_build (st : Process) (i : nat) (r : RrssFeed) :
  crashed st = None ->
  nth_error (tasks st) i = Some Spawned ->
  result (task w url feed i) = inr r ->
  feedItems (step w url feed st i) = feedItems st /\
  tasks (step w url feed st i) = update (tasks st) i (Built r) /\
  wg (step w url feed st i) = wg st /\
  crashed (step w url feed st i) = None.
Proof.
  intros Hc Hn Ht. unfold step. rewrite Hc, Hn.
  destruct (task w url feed i) as [es [a | r1]]; cbn in Ht;
    [discriminate |].
  inversion Ht. subst r1. cbn. auto.
Qed.

Lemma step_load (st : Process) (i : nat) (r : RrssFeed) :
  crashed st = None ->
  nth_error (tasks st) i = Some (Built r) ->
  feedItems (step w url feed st i) = feedItems st /\
  tasks (step w url feed st i)
  = update (tasks st) i (Loaded (feedItems st) r) /\
  wg (step w url feed st i) = wg st /\
  crashed (step w url feed st i) = None.
Proof. intros Hc Hn. unfold step. rewrite Hc, Hn. cbn. auto. Qed.

Lemma step_store (st : Process) (i : nat) (old : list RrssFeed)
      (r : RrssFeed) :
  crashed st = None ->
  nth_error (tasks st) i = Some (Loaded old r) ->
  feedItems (step w url feed st i) = (old ++ [r])%list /\
  tasks (step w url feed st i) = update (tasks st) i Finished /\
  wg (step w url feed st i) = pred (wg st) /\
  crashed (step w url feed st i) = None.
Proof. intros Hc Hn. unfold step. rewrite Hc, Hn. cbn. auto. Qed.

(** The three steps of a goroutine that nothing interrupts. *)
Lemma step_thrice (st : Process) (i : nat) (r : RrssFeed) :
  crashed st = None ->
  nth_error (tasks st) i = Some Spawned ->
  result (task w url feed i) = inr r ->
  let st' := fold_left (step w url feed) [i; i; i] st in
  feedItems st' = (feedItems st ++ [r])%list /\
  tasks st' = update (tasks st) i Finished /\
  wg st' = pred (wg st) /\
  crashed st' = None.
Proof.
  intros Hc Hn Ht. cbn [fold_left].
  destruct (step_build st i r Hc Hn Ht) as [Hf1 [Ht1 [Hw1 Hc1]]].
  assert (Hn1 : nth_error (tasks (step w url feed st i)) i = Some (Built r)).
  { rewrite Ht1. eapply nth_error_update_eq. eassumption. }
  destruct (step_load _ i r Hc1 Hn1) as [Hf2 [Ht2 [Hw2 Hc2]]].
  assert (Hn2 : nth_error
                  (tasks (step w url feed (step w url feed st i) i)) i
                = Some (Loaded (feedItems st) r)).
  { rewrite Ht2, Hf1. eapply nth_error_update_eq. eassumption. }
  destruct (step_store _ i _ r Hc2 Hn2) as [Hf3 [Ht3 [Hw3 Hc3]]].
  cbn zeta. rewrite Hf3, Ht3, Hw3, Hc3, Ht2, Ht1, Hw2, Hw1.
  rewrite !update_update. auto.
Qed.

Lemma run_serial (k : nat) :
  k <= sliceLength feed ->
  (forall i, i < k -> exists r, result (task w url feed i) = inr r) ->
  let st := run w url feed (serial k) in
  feedItems st = outputs w url feed k /\
  tasks st = (repeat Finished k ++ repeat Spawned (sliceLength feed - k))%list /\
  wg st = sliceLength feed - k /\
  crashed st = None.
Proof.
  induction k as [|k IH]; intros Hk Hall.
  - cbn. rewrite Nat.sub_0_r. auto.
  - cbn zeta in *.
    destruct IH as [Hf [Ht [Hw Hc]]]; [lia | intros; apply Hall; lia |].
    destruct (Hall k) as [r Hr]; [lia |].
    unfold serial, outputs. rewrite seq_S, !flat_map_app. cbn [flat_map].
    rewrite app_nil_r, run_app. change (0 + k) with k.
    fold (serial k). fold (outputs w url feed k).
    assert (Hsp : nth_error (tasks (run w url feed (serial k))) k
                  = Some Spawned).
    { rewrite Ht, nth_error_app2 by (rewrite repeat_length; lia).
      rewrite repeat_length, Nat.sub_diag.
      replace (sliceLength feed - k) with (S (sliceLength feed - S k)) by lia.
      reflexivity. }
    destruct (step_thrice _ k r Hc Hsp Hr) as [Hf' [Ht' [Hw' Hc']]].
    rewrite Hf', Ht', Hw', Hc', Hf, Hw.
    unfold built_by. rewrite Hr.
    repeat split; try lia.
    rewrite Ht.
    replace (sliceLength feed - k) with (S (sliceLength feed - S k)) by lia.
    cbn [repeat].
    rewrite update_after_repeat.
    change (Finished :: repeat Finished k) with (repeat Finished (S k)).
    rewrite <- repeat_snoc, <- app_assoc. reflexivity.
Qed.

Lemma outputs_length (k : nat) :
  (forall i, i < k -> exists r, result (task w url feed i) = inr r) ->
  List.length (outputs w url feed k) = k.
Proof.
  induction k as [|k IH]; intro Hall; [reflexivity |].
  unfold outputs. rewrite seq_S, flat_map_app, length_app.
  fold (outputs w url feed k). rewrite IH by (intros; apply Hall; lia).
  cbn. destruct (Hall k) as [r Hr]; [lia |].
  unfold built_by. rewrite Hr. cbn. lia.
Qed.

End Serial.

(** When the goroutines run one after the other in the order of the items
    and none stops the process, [Parse] returns one record per item, in the
    order of the items. *)
Lemma Parse_serial (w : World) (url : string) (feed : gofeed.Feed.t) :
  gofeed_ParseURL w url = inl feed ->
  (forall i, i < sliceLength feed ->
             exists r, result (task w url feed i) = inr r) ->
  snd (Parse w url (serial (sliceLength feed)))
  = Return (outputs w url feed (sliceLength feed)) None /\
  List.length (outputs w url feed (sliceLength feed)) = sliceLength feed.
Proof.
  intros Hf Hall. split; [| now apply outputs_length].
  destruct (run_serial w url feed (sliceLength feed) (le_n _) Hall)
    as [Hi [_ [Hw Hc]]].
  unfold Parse. rewrite Hf, Hc, Hw, Nat.sub_diag, Hi. reflexivity.
Qed.

(** When the feed cannot be retrieved, [Parse] returns the error and no
    record, under every schedule. *)
Lemma Parse_feed_error (w : World) (url : string) (e : error)
      (sched : list nat) :
  gofeed_ParseURL w url = inr e ->
  snd (Parse w url sched) = Return [] (Some e).
Proof. intro H. unfold Parse. rewrite H. reflexivity. Qed.

(** ** Never more records than items *)

Section Bound.

Variable w : World.
Variable url : string.
Variable feed : gofeed.Feed.t.

(** The shared slice, and every slice a goroutine has read, is no longer
    than the number of goroutines that have finished. *)
Lemma run_bound (sched : list nat) :
  let st := run w url feed sched in
  List.length (feedItems st) <= finished st /\
  forall i old r,
    nth_error (tasks st) i = Some (Loaded old r) ->
    List.length old <= finished st.
Proof.
  apply run_invariant with
    (I := fun st =>
            List.length (feedItems st) <= finished st /\
            forall i old r,
              nth_error (tasks st) i = Some (Loaded old r) ->
              List.length old <= finished st).
  - cbn. split; [lia |]. intros i old r H.
    apply nth_error_In, repeat_spec in H. discriminate.
  - intros st j [Hlen Hold]. unfold step, finished in *.
    destruct (crashed st); [auto |].
    destruct (nth_error (tasks st) j) as [[| r0 | old0 r0 |]|] eqn:Hn; auto.
    + destruct (task w url feed j) as [es [a | r1]]; cbn; auto.
      pose proof (count_update is_finished _ _ (Built r1) _ Hn) as Hc.
      cbn in Hc. split; [lia |].
      intros i old r. destruct (Nat.eq_dec j i) as [-> | Hne].
      * rewrite (nth_error_update_eq _ _ _ _ Hn). discriminate.
      * rewrite nth_error_update_neq by exact Hne.
        intro H. specialize (Hold _ _ _ H). lia.
    + cbn.
      pose proof (count_update is_finished _ _
                    (Loaded (feedItems st) r0) _ Hn) as Hc.
      cbn in Hc. split; [lia |].
      intros i old r. destruct (Nat.eq_dec j i) as [-> | Hne].
      * rewrite (nth_error_update_eq _ _ _ _ Hn).
        intro H. inversion H. subst. lia.
      * rewrite nth_error_update_neq by exact Hne.
        intro H. specialize (Hold _ _ _ H). lia.
    + cbn.
      pose proof (count_update is_finished _ _ Finished _ Hn) as Hc.
      cbn in Hc. specialize (Hold _ _ _ Hn) as Hold0.
      split; [rewrite length_app; cbn; lia |].
      intros i old r. destruct (Nat.eq_dec j i) as [-> | Hne].
      * rewrite (nth_error_update_eq _ _ _ _ Hn). discriminate.
      * rewrite nth_error_update_neq by exact Hne.
        intro H. specialize (Hold _ _ _ H). lia.
Qed.

End Bound.

(** [Parse] never returns more records than the feed has items. *)
Lemma Parse_at_most (w : World) (url : string) (feed : gofeed.Feed.t)
      (sched : list nat) (items : list RrssFeed) (err : option error) :
  gofeed_ParseURL w url = inl feed ->
  snd (Parse w url sched) = Return items err ->
  List.length items <= sliceLength feed.
Proof.
  intros Hf H. apply Parse_returns in H.
  destruct H as [[e [He _]] | [feed' [Hf' [_ [Hi _]]]]]; [congruence |].
  assert (feed' = feed) by congruence. subst feed' items.
  destruct (run_bound w url feed sched) as [Hb _].
  destruct (run_counter w url feed sched) as [_ Hc]. lia.
Qed.

(** ** The aggregation, on a feed of two items *)

(** C1 -- completeness, at a feed of two items without links.  The feed is
    retrieved and has two items, yet when both goroutines read [feedItems]
    before either writes it, [Parse] returns one record; when the goroutines
    run one after the other it returns the two. *)
Theorem Parse_loses_a_record :
  gofeed_ParseURL Sample.world "http://example.org/two.xml"
  = inl Sample.feed_two /\
  sliceLength Sample.feed_two = 2 /\
  snd (Parse Sample.world "http://example.org/two.xml" [0; 1; 0; 1; 0; 1])
  = Return [Sample.record_G1] None /\
  snd (Parse Sample.world "http://example.org/two.xml" [0; 0; 0; 1; 1; 1])
  = Return [Sample.record_hello1; Sample.record_G1] None.
Proof.
  split; [| split; [| split]]; vm_compute; reflexivity.
Qed.

(** C2 -- race-freedom, at the same feed.  The two goroutines read and write
    [feedItems] with nothing between them: the accesses of the run are a data
    race, and the write of goroutine 0 is lost, so the run ends with one
    record for two items. *)
Theorem Parse_races_on_feedItems :
  let st := run Sample.world "http://example.org/two.xml" Sample.feed_two
                [0; 1; 0; 1; 0; 1] in
  accesses st = [(0, Read); (1, Read); (0, Write); (1, Write)] /\
  data_race (accesses st) = true /\
  wg st = 0 /\
  feedItems st = [Sample.record_G1] /\
  List.length (feedItems st) <> sliceLength Sample.feed_two.
Proof.
  cbn zeta. split; [| split; [| split; [| split]]];
    try (vm_compute; reflexivity).
  vm_compute. discriminate.
Qed.

(** C3 -- a fetch that fails, at a feed whose second item links to a page
    that refuses the connection.  GoOse answers a nil article and an error;
    the task logs the error, reads [article.CleanedText] and panics: the run
    ends the process, and under no schedule does [Parse] return. *)
Theorem Parse_panics_on_failed_fetch :
  gofeed_ParseURL Sample.world "http://example.org/down.xml"
  = inl Sample.feed_down /\
  goose_ExtractFromURL Sample.world (gofeed.Item.Link Sample.item_unreachable)
  = (None, Some "connection refused") /\
  result (task Sample.world "http://example.org/down.xml" Sample.feed_down 1)
  = inl NilDereference /\
  snd (Parse Sample.world "http://example.org/down.xml" [0; 0; 0; 1; 1; 1])
  = Exit NilDereference /\
  forall sched items err,
    snd (Parse Sample.world "http://example.org/down.xml" sched)
    <> Return items err.
Proof.
  split; [vm_compute; reflexivity |].
  split; [vm_compute; reflexivity |].
  split; [vm_compute; reflexivity |].
  split; [vm_compute; reflexivity |].
  intros sched items err.
  apply (Parse_dies_with_task Sample.world "http://example.org/down.xml"
           Sample.feed_down 1 NilDereference).
  - reflexivity.
  - cbn. lia.
  - vm_compute. reflexivity.
Qed.

(** ** Which fields are sanitized *)





(** ** GetExtendedArticle *)

Section Largest.

Variable w : World.

(** the sanitized inner HTML of each matched element *)
Let sanitized (s : goquery.Selection) : string :=
  Sanitize w (fst (goquery.Html s)).

Lemma pick_eq (article : string) (s : goquery.Selection) :
  pick w article s
  = if len article <? len (sanitized s) then sanitized s else article.
Proof. unfold pick, sanitized. destruct (goquery.Html s). reflexivity. Qed.

(** [Each] ends on the accumulator or on a candidate, at least as long as
    both. *)
Lemma fold_pick (l : list goquery.Selection) (acc : string) :
  let r := fold_left (pick w) l acc in
  (r = acc \/ In r (map sanitized l)) /\
  len acc <= len r /\
  forall c, In c (map sanitized l) -> len c <= len r.
Proof.
  revert acc. induction l as [|s l IH]; intro acc; cbn zeta.
  - cbn [fold_left map]. split; [auto |]. split; [lia |]. intros c [].
  - cbn [fold_left map]. rewrite pick_eq.
    destruct (len acc <? len (sanitized s)) eqn:Hlt.
    + apply Nat.ltb_lt in Hlt.
      destruct (IH (sanitized s)) as [Hin [Hle Hmax]].
      split; [| split].
      * right. destruct Hin as [-> | Hin]; [left; reflexivity | right; auto].
      * lia.
      * intros c [<- | Hc]; [exact Hle | auto].
    + apply Nat.ltb_ge in Hlt.
      destruct (IH acc) as [Hin [Hle Hmax]].
      split; [| split].
      * destruct Hin as [-> | Hin]; [left; reflexivity | right; right; auto].
      * exact Hle.
      * intros c [<- | Hc]; [lia | auto].
Qed.

End Largest.

(** [Each] keeps the accumulator, or the first candidate longer than the
    accumulator and all before it, and no shorter than all after it. *)
Lemma fold_pick_first (w : World) (l : list goquery.Selection)
      (acc : string) :
  let r := fold_left (pick w) l acc in
  (r = acc /\
   forall s, In s l -> len (Sanitize w (fst (goquery.Html s))) <= len acc) \/
  (exists before s after,
     l = (before ++ s :: after)%list /\
     r = Sanitize w (fst (goquery.Html s)) /\
     len acc < len r /\
     (forall x, In x before ->
                len (Sanitize w (fst (goquery.Html x))) < len r) /\
     (forall x, In x after ->
                len (Sanitize w (fst (goquery.Html x))) <= len r)).
Proof.
  revert acc. induction l as [|s l IH]; intro acc; cbn zeta.
  - left. split; [reflexivity |]. intros s [].
  - cbn [fold_left]. rewrite pick_eq.
    destruct (len acc <? len (Sanitize w (fst (goquery.Html s)))) eqn:Hlt.
    + apply Nat.ltb_lt in Hlt.
      destruct (IH (Sanitize w (fst (goquery.Html s))))
        as [[Hr Hall] | [before [s' [after [Hl [Hr [Hgt [Hb Ha]]]]]]]].
      * right. exists [], s, l. rewrite Hr.
        split; [reflexivity |]. split; [reflexivity |].
        split; [exact Hlt |]. split; [intros x [] | exact Hall].
      * right. exists (s :: before), s', after. subst l.
        split; [reflexivity |]. split; [exact Hr |].
        split; [lia |]. split; [| exact Ha].
        intros x [<- | Hx]; [exact Hgt | auto].
    + apply Nat.ltb_ge in Hlt.
      destruct (IH acc)
        as [[Hr Hall] | [before [s' [after [Hl [Hr [Hgt [Hb Ha]]]]]]]].
      * left. split; [exact Hr |].
        intros x [<- | Hx]; [exact Hlt | auto].
      * right. exists (s :: before), s', after. subst l.
        split; [reflexivity |]. split; [exact Hr |].
        split; [exact Hgt |]. split; [| exact Ha].
        intros x [<- | Hx]; [lia | auto].
Qed.

(** C8, as stated, fails -- a 2xx response does not always yield an article:
    when the body does not parse, the answer is an error. *)
Lemma GetExtendedArticle_2xx_unparsed_body :
  ~ (forall (w : World) (link : string) (response : http.Response),
       http_Get w link = inl response ->
       (200 <= http.StatusCode response <= 299)%Z ->
       exists article, snd (GetExtendedArticle w link) = (article, None)).
Proof.
  intro H.
  destruct (H Sample.world "http://example.org/cut"
              (http.mkResponse 200 "<html><arti")) as [article Ha].
  - reflexivity.
  - cbn. lia.
  - vm_compute in Ha. discriminate Ha.
Qed.

(** C8, amended -- [GetExtendedArticle].  On a 2xx response whose body
    parses as HTML it returns, with a nil error, the sanitized inner HTML of
    an [<article>] element whose sanitized inner HTML is longest, the first
    such element on ties: strictly longer than every element before it and
    at least as long as every element after it (the empty string when the
    page has none, or when every element is empty once sanitized); it
    returns the empty string and an error when the fetch fails, when the
    status is not 2xx, and when the body of a 2xx response does not parse. *)
Theorem GetExtendedArticle_largest_article (w : World) (link : string) :
  (forall response doc,
     http_Get w link = inl response ->
     (200 <= http.StatusCode response <= 299)%Z ->
     goquery_NewDocumentFromResponse w response = inl doc ->
     exists article,
       snd (GetExtendedArticle w link) = (article, None) /\
       let candidates :=
         map (fun s => Sanitize w (fst (goquery.Html s)))
             (goquery.Find doc "article") in
       (candidates = [] -> article = "") /\
       (candidates <> [] -> In article candidates) /\
       (forall c, In c candidates -> len c <= len article) /\
       ((article = "" /\
         forall s, In s (goquery.Find doc "article") ->
                   Sanitize w (fst (goquery.Html s)) = "") \/
        (exists before s after,
           goquery.Find doc "article" = (before ++ s :: after)%list /\
           article = Sanitize w (fst (goquery.Html s)) /\
           (forall x, In x before ->
              len (Sanitize w (fst (goquery.Html x))) < len article) /\
           (forall x, In x after ->
              len (Sanitize w (fst (goquery.Html x))) <= len article)))) /\
  (forall response e,
     http_Get w link = inl response ->
     (200 <= http.StatusCode response <= 299)%Z ->
     goquery_NewDocumentFromResponse w response = inr e ->
     snd (GetExtendedArticle w link) = ("", Some e)) /\
  (forall e,
     http_Get w link = inr e ->
     snd (GetExtendedArticle w link) = ("", Some e)) /\
  (forall response,
     http_Get w link = inl response ->
     ~ (200 <= http.StatusCode response <= 299)%Z ->
     snd (GetExtendedArticle w link)
     = ("", Some ("Expected 2XX status code but received '"
                    ++ itoa (http.StatusCode response) ++ "'")%string)).
Proof.
  assert (H2xx : forall z : Z,
             (200 <= z <= 299)%Z ->
             ((200 <=? z)%Z && (z <=? 299)%Z) = true).
  { intros z Hz. apply andb_true_iff. split; apply Z.leb_le; lia. }
  split; [| split; [| split]].
  - intros response doc Hget Hs Hdoc.
    unfold GetExtendedArticle. rewrite Hget, (H2xx _ Hs), Hdoc.
    eexists. split; [reflexivity |]. cbn zeta.
    destruct (fold_pick w (goquery.Find doc "article") "")
      as [Hin [_ Hmax]].
    split; [| split; [| split]].
    + intro Hnil. apply map_eq_nil in Hnil. rewrite Hnil. reflexivity.
    + intro Hne. destruct Hin as [Hin | Hin]; [| exact Hin].
      destruct (map (fun s => Sanitize w (fst (goquery.Html s)))
                    (goquery.Find doc "article")) as [|c cs] eqn:Hc;
        [now elim Hne |].
      left. specialize (Hmax c (or_introl eq_refl)).
      rewrite Hin in *. destruct c; [reflexivity | unfold len in Hmax; cbn in Hmax; lia].
    + exact Hmax.
    + destruct (fold_pick_first w (goquery.Find doc "article") "")
        as [[Hr Hall] | Hfirst].
      * left. split; [exact Hr |]. intros s Hs'.
        specialize (Hall s Hs').
        destruct (Sanitize w (fst (goquery.Html s))); [reflexivity |].
        unfold len in Hall. cbn in Hall. lia.
      * right. destruct Hfirst as [before [s [after [Hl [Hr [_ [Hb Ha]]]]]]].
        exists before, s, after. rewrite <- Hr. auto.
  - intros response e Hget Hs Hdoc.
    unfold GetExtendedArticle. rewrite Hget, (H2xx _ Hs), Hdoc. reflexivity.
  - intros e Hget. unfold GetExtendedArticle. rewrite Hget. reflexivity.
  - intros response Hget Hs.
    unfold GetExtendedArticle. rewrite Hget.
    destruct ((200 <=? http.StatusCode response)%Z
              && (http.StatusCode response <=? 299)%Z) eqn:Hb; [| reflexivity].
    apply andb_true_iff in Hb. destruct Hb as [H1 H2].
    apply Z.leb_le in H1, H2. elim Hs. lia.
Qed.

Lemma GetExtendedArticle_largest_article_witness :
  snd (GetExtendedArticle Sample.world "http://example.org/ok")
  = ("the longest one", None) /\
  snd (GetExtendedArticle Sample.world "http://example.org/missing")
  = ("", Some "Expected 2XX status code but received '404'") /\
  snd (GetExtendedArticle Sample.world "http://example.org/nowhere")
  = ("", Some "connection refused").
Proof.
  split; [| split].
  - destruct (proj1 (GetExtendedArticle_largest_article Sample.world
                       "http://example.org/ok")
                    (http.mkResponse 200 "<html>...</html>") Sample.page)
      as [article [Ha _]].
    + reflexivity.
    + cbn. lia.
    + reflexivity.
    + vm_compute. reflexivity.
  - apply (proj2 (proj2 (proj2 (GetExtendedArticle_largest_article
                                  Sample.world "http://example.org/missing")))
             (http.mkResponse 404 "not found")).
    + reflexivity.
    + cbn. lia.
  - apply (proj1 (proj2 (proj2 (GetExtendedArticle_largest_article
                                  Sample.world "http://example.org/nowhere")))).
    reflexivity.
Defined.


(** ** The lockstep schedule *)

Lemma sweep_nth (after before : nat -> Pc) (k n : nat) :
  k < n -> nth_error (sweep after before k n) k = Some (before k).
Proof.
  intro Hk. unfold sweep.
  rewrite nth_error_app2 by (rewrite length_map, length_seq; lia).
  rewrite length_map, length_seq, Nat.sub_diag.
  replace (n - k) with (S (n - S k)) by lia. reflexivity.
Qed.

Lemma update_after {A} (l1 l2 : list A) (x y : A) (k : nat) :
  List.length l1 = k ->
  update (l1 ++ x :: l2) k y = (l1 ++ y :: l2)%list.
Proof.
  intros <-. induction l1 as [|h t IH]; cbn; [reflexivity | now rewrite IH].
Qed.

Lemma sweep_update (after before : nat -> Pc) (k n : nat) :
  k < n ->
  update (sweep after before k n) k (after k) = sweep after before (S k) n.
Proof.
  intro Hk. unfold sweep.
  rewrite seq_S, map_app, <- app_assoc.
  replace (n - k) with (S (n - S k)) by lia.
  change (seq k (S (n - S k))) with (k :: seq (S k) (n - S k)).
  cbn [map Nat.add app].
  apply update_after. now rewrite length_map, length_seq.
Qed.

Section Lockstep.

Variable w : World.
Variable url : string.
Variable feed : gofeed.Feed.t.

Hypothesis all_built :
  forall i, i < sliceLength feed ->
            exists r, result (task w url feed i) = inr r.

Lemma record_of_built (i : nat) :
  i < sliceLength feed ->
  result (task w url feed i) = inr (record_of w url feed i).
Proof.
  intro Hi. destruct (all_built i Hi) as [r Hr].
  unfold record_of. rewrite Hr. reflexivity.
Qed.

(** First every goroutine builds its record. *)
Lemma sweep_build (k : nat) :
  k <= sliceLength feed ->
  let st := fold_left (step w url feed) (seq 0 k) (spawn feed) in
  feedItems st = [] /\
  tasks st = sweep (fun i => Built (record_of w url feed i))
                   (fun _ => Spawned) k (sliceLength feed) /\
  wg st = sliceLength feed /\
  crashed st = None.
Proof.
  induction k as [|k IH]; intro Hk; cbn zeta.
  - cbn [seq fold_left]. unfold sweep. cbn [seq map app].
    rewrite Nat.sub_0_r, map_const, length_seq. cbn. auto.
  - rewrite seq_S, fold_left_app. cbn [fold_left Nat.add].
    destruct IH as [Hf [Ht [Hw Hc]]]; [lia |].
    set (st := fold_left (step w url feed) (seq 0 k) (spawn feed)) in *.
    assert (Hn : nth_error (tasks st) k = Some Spawned)
      by (rewrite Ht; apply (sweep_nth _ (fun _ => Spawned)); lia).
    destruct (step_build w url feed st k _ Hc Hn (record_of_built k Hk))
      as [Hf' [Ht' [Hw' Hc']]].
    rewrite Hf', Ht', Hw', Hc', Hf, Ht, Hw.
    rewrite (sweep_update (fun i => Built (record_of w url feed i))) by lia.
    auto.
Qed.

(** Then every goroutine reads the slice, which is still empty. *)
Lemma sweep_load (st0 : Process) (k : nat) :
  feedItems st0 = [] ->
  tasks st0 = sweep (fun i => Loaded [] (record_of w url feed i))
                    (fun i => Built (record_of w url feed i))
                    0 (sliceLength feed) ->
  crashed st0 = None ->
  k <= sliceLength feed ->
  let st := fold_left (step w url feed) (seq 0 k) st0 in
  feedItems st = [] /\
  tasks st = sweep (fun i => Loaded [] (record_of w url feed i))
                   (fun i => Built (record_of w url feed i))
                   k (sliceLength feed) /\
  wg st = wg st0 /\
  crashed st = None.
Proof.
  intros Hf0 Ht0 Hc0.
  induction k as [|k IH]; intro Hk; cbn zeta.
  - cbn [seq fold_left]. auto.
  - rewrite seq_S, fold_left_app. cbn [fold_left Nat.add].
    destruct IH as [Hf [Ht [Hw Hc]]]; [lia |].
    set (st := fold_left (step w url feed) (seq 0 k) st0) in *.
    assert (Hn : nth_error (tasks st) k
                 = Some (Built (record_of w url feed k)))
      by (rewrite Ht;
          apply (sweep_nth _ (fun i => Built (record_of w url feed i))); lia).
    destruct (step_load w url feed st k _ Hc Hn) as [Hf' [Ht' [Hw' Hc']]].
    rewrite Hf', Ht', Hw', Hc', Hf, Ht, Hw.
    rewrite (sweep_update (fun i => Loaded [] (record_of w url feed i)))
      by lia.
    auto.
Qed.

(** Last every goroutine writes the slice it has read, one record longer:
    each write replaces the one before. *)
Lemma sweep_store (st0 : Process) (k : nat) :
  feedItems st0 = [] ->
  tasks st0 = sweep (fun _ => Finished)
                    (fun i => Loaded [] (record_of w url feed i))
                    0 (sliceLength feed) ->
  wg st0 = sliceLength feed ->
  crashed st0 = None ->
  k <= sliceLength feed ->
  let st := fold_left (step w url feed) (seq 0 k) st0 in
  feedItems st = match k with
                 | O => []
                 | S j => [record_of w url feed j]
                 end /\
  tasks st = sweep (fun _ => Finished)
                   (fun i => Loaded [] (record_of w url feed i))
                   k (sliceLength feed) /\
  wg st = sliceLength feed - k /\
  crashed st = None.
Proof.
  intros Hf0 Ht0 Hw0 Hc0.
  induction k as [|k IH]; intro Hk; cbn zeta.
  - cbn [seq fold_left]. rewrite Nat.sub_0_r. auto.
  - rewrite seq_S, fold_left_app. cbn [fold_left Nat.add].
    destruct IH as [Hf [Ht [Hw Hc]]]; [lia |].
    set (st := fold_left (step w url feed) (seq 0 k) st0) in *.
    assert (Hn : nth_error (tasks st) k
                 = Some (Loaded [] (record_of w url feed k)))
      by (rewrite Ht;
          apply (sweep_nth _ (fun i => Loaded [] (record_of w url feed i)));
          lia).
    destruct (step_store w url feed st k _ _ Hc Hn) as [Hf' [Ht' [Hw' Hc']]].
    rewrite Hf', Ht', Hw', Hc', Ht, Hw.
    rewrite (sweep_update (fun _ => Finished)) by lia.
    repeat split; try reflexivity. lia.
Qed.

Lemma run_lockstep :
  let st := run w url feed (lockstep (sliceLength feed)) in
  feedItems st = match sliceLength feed with
                 | O => []
                 | S j => [record_of w url feed j]
                 end /\
  wg st = 0 /\
  crashed st = None.
Proof.
  cbn zeta. unfold run, lockstep. rewrite !fold_left_app.
  destruct (sweep_build (sliceLength feed) (le_n _)) as [Hf1 [Ht1 [Hw1 Hc1]]].
  set (st1 := fold_left (step w url feed) (seq 0 (sliceLength feed))
                        (spawn feed)) in *.
  assert (Ht1' : tasks st1
                 = sweep (fun i => Loaded [] (record_of w url feed i))
                         (fun i => Built (record_of w url feed i))
                         0 (sliceLength feed)).
  { rewrite Ht1. unfold sweep.
    rewrite Nat.sub_diag, Nat.sub_0_r. cbn. now rewrite app_nil_r. }
  destruct (sweep_load st1 (sliceLength feed) Hf1 Ht1' Hc1 (le_n _))
    as [Hf2 [Ht2 [Hw2 Hc2]]].
  set (st2 := fold_left (step w url feed) (seq 0 (sliceLength feed)) st1) in *.
  assert (Ht2' : tasks st2
                 = sweep (fun _ => Finished)
                         (fun i => Loaded [] (record_of w url feed i))
                         0 (sliceLength feed)).
  { rewrite Ht2. unfold sweep.
    rewrite Nat.sub_diag, Nat.sub_0_r. cbn. now rewrite app_nil_r. }
  destruct (sweep_store st2 (sliceLength feed) Hf2 Ht2'
                        (eq_trans Hw2 Hw1) Hc2 (le_n _))
    as [Hf3 [_ [Hw3 Hc3]]].
  rewrite Hf3, Hw3, Hc3, Nat.sub_diag. auto.
Qed.

End Lockstep.

(** When the goroutines build, then read [feedItems], then write it, each
    time in the order of the items, [Parse] returns one record, that of the
    last item, however many items the feed has: each write replaces the one
    before. *)
Lemma Parse_lockstep (w : World) (url : string) (feed : gofeed.Feed.t) :
  gofeed_ParseURL w url = inl feed ->
  (forall i, i < sliceLength feed ->
             exists r, result (task w url feed i) = inr r) ->
  0 < sliceLength feed ->
  snd (Parse w url (lockstep (sliceLength feed)))
  = Return [record_of w url feed (pred (sliceLength feed))] None.
Proof.
  intros Hf Hall Hn.
  destruct (run_lockstep w url feed Hall) as [Hi [Hw Hc]].
  unfold Parse. rewrite Hf, Hc, Hw, Hi.
  destruct (sliceLength feed); [lia | reflexivity].
Qed.


(** * Further properties of the package *)

(** ** Ids *)

Lemma digit_in_hextable (n : Z) :
  In (hex.digit n) (list_ascii_of_string hex.hextable).
Proof.
  unfold hex.digit. generalize (Z.to_nat n). intro k.
  do 16 (destruct k as [|k]; [cbn; tauto |]).
  cbn. tauto.
Qed.

Lemma EncodeToString_digits (src : list Z) :
  Forall (fun c => In c (list_ascii_of_string hex.hextable))
         (list_ascii_of_string (hex.EncodeToString src)).
Proof.
  induction src as [|v rest IH]; cbn [hex.EncodeToString list_ascii_of_string].
  - constructor.
  - constructor; [apply digit_in_hextable |].
    constructor; [apply digit_in_hextable | exact IH].
Qed.

(** X1 -- every character of a content hash is one of [0123456789abcdef]:
    whatever the description holds, the id made from it holds no markup. *)
Theorem hashContent_hex_digits (content : string) :
  Forall (fun c => In c (list_ascii_of_string "0123456789abcdef"))
         (list_ascii_of_string (hashContent content)) /\
  has_script (hashContent content) = false.
Proof.
  assert (Hd : Forall (fun c => In c (list_ascii_of_string "0123456789abcdef"))
                      (list_ascii_of_string (hashContent content))).
  { unfold hashContent. apply EncodeToString_digits. }
  split; [exact Hd |].
  revert Hd. generalize (hashContent content). intro s.
  induction s as [|c rest IH]; intro Hd; [reflexivity |].
  cbn [list_ascii_of_string] in Hd. inversion Hd as [|? ? Hc Hrest]. subst.
  unfold has_script in *. cbn [contains String.prefix].
  destruct (ascii_dec "<" c) as [Heq | Hne].
  - subst c. cbn in Hc. repeat (destruct Hc as [Hc | Hc]; [discriminate |]).
    destruct Hc.
  - cbn. apply IH. exact Hrest.
Qed.

(** X2 -- the two ways to an id meet: an item whose GUID is the content hash
    of another item's description gets the id of that other item when it has
    no GUID of its own. *)
Theorem generateId_strategies_collide (w : World) (a b : gofeed.Item.t) :
  gofeed.Item.GUID a = hashContent (gofeed.Item.Description b) ->
  gofeed.Item.GUID b = "" ->
  result (generateId w a) = result (generateId w b).
Proof.
  intros Ha Hb. rewrite !generateId_eq, Ha, Hb, hashContent_len. reflexivity.
Qed.

Lemma generateId_strategies_collide_witness :
  result (generateId Sample.world
            (gofeed.Item.mk "Copy" "something else" "" "2006-01-08"
                            "7b502c3a1f48c8609ae212cdfb639dee39673f5e"))
  = result (generateId Sample.world Sample.item_hello1).
Proof.
  apply (generateId_strategies_collide Sample.world
           (gofeed.Item.mk "Copy" "something else" "" "2006-01-08"
                           "7b502c3a1f48c8609ae212cdfb639dee39673f5e")
           Sample.item_hello1).
  - vm_compute. reflexivity.
  - reflexivity.
Defined.

(** ** The article of an item *)

(** The requests of a task are those of its item. *)
Lemma task_fetches (w : World) (url : string) (feed : gofeed.Feed.t)
      (i : nat) :
  filter is_fetch (events (task w url feed i)) = fetches_of feed i.
Proof.
  unfold task, index, fetches_of.
  destruct (nth_error (gofeed.Feed.Items feed) i) as [item|] eqn:Hi;
    [| reflexivity].
  cbn [bind ret]. rewrite generateId_eq. unfold extractArticle.
  destruct (0 <? len (gofeed.Item.GUID item));
    (destruct (0 <? len (gofeed.Item.Link item));
     [ destruct (goose_ExtractFromURL w (gofeed.Item.Link item))
         as [[a|] [e|]]; reflexivity
     | reflexivity ]).
Qed.

(** X3 -- an item with a link whose extraction answers an article.  The
    task requests the link once, pauses one second, and builds a record that
    carries the sanitized text of the article and its image as it is; an
    error that comes with the article is logged and changes nothing else. *)
Theorem task_enriches_linked_item (w : World) (url : string)
        (feed : gofeed.Feed.t) (i : nat) (item : gofeed.Item.t)
        (a : goose.Article) (e : option error) :
  nth_error (gofeed.Feed.Items feed) i = Some item ->
  gofeed.Item.Link item <> "" ->
  goose_ExtractFromURL w (gofeed.Item.Link item) = (Some a, e) ->
  exists r,
    result (task w url feed i) = inr r /\
    ItemExtendedBody r = Sanitize w (goose.CleanedText a) /\
    ItemImage r = goose.TopImage a /\
    ItemUrl r = gofeed.Item.Link item /\
    filter is_fetch (events (task w url feed i))
    = [Fetch (gofeed.Item.Link item)] /\
    In (Sleep 1) (events (task w url feed i)) /\
    (forall err, e = Some err ->
                 In (Log "" [AErr err]) (events (task w url feed i))).
Proof.
  intros Hi Hl Hx. apply len_pos_iff in Hl.
  rewrite task_fetches. unfold fetches_of. rewrite Hi, Hl.
  unfold task, index. rewrite Hi. cbn [bind ret].
  rewrite generateId_eq. unfold extractArticle. rewrite Hl, Hx.
  destruct (0 <? len (gofeed.Item.GUID item)); destruct e as [err|]; cbn;
    (eexists; split; [reflexivity |]); cbn;
    (split; [reflexivity |]); (split; [reflexivity |]);
    (split; [reflexivity |]); (split; [reflexivity |]);
    (split; [tauto |]); intros err' Herr; inversion Herr; subst; tauto.
Qed.

Lemma task_enriches_linked_item_witness :
  exists r,
    result (task Sample.world "http://example.org/story.xml"
                 Sample.feed_story 0) = inr r /\
    ItemExtendedBody r = "The full story" /\
    ItemImage r = "http://example.org/s.png".
Proof.
  destruct (task_enriches_linked_item Sample.world
              "http://example.org/story.xml" Sample.feed_story 0
              Sample.item_linked
              (goose.mkArticle "<p>The full story</p>"
                               "http://example.org/s.png") None)
    as [r [Hr [Hx [Him _]]]].
  - reflexivity.
  - cbn. discriminate.
  - reflexivity.
  - exists r. split; [exact Hr |]. split; [| exact Him].
    rewrite Hx. reflexivity.
Defined.

(** ** What [Parse] returns *)

Lemma run_no_items (w : World) (url : string) (feed : gofeed.Feed.t)
      (sched : list nat) :
  gofeed.Feed.Items feed = [] ->
  run w url feed sched = spawn feed.
Proof.
  intro He. unfold run.
  assert (Ht : tasks (spawn feed) = [])
    by (unfold spawn, sliceLength; rewrite He; reflexivity).
  revert Ht. generalize (spawn feed). intros st Ht.
  induction sched as [|i sched IH]; [reflexivity |].
  cbn [fold_left].
  replace (step w url feed st i) with st; [exact IH |].
  unfold step. rewrite Ht.
  destruct (crashed st); [reflexivity |].
  destruct i; reflexivity.
Qed.

(** X5 -- a feed without items.  No run has a goroutine, [wg.Wait] returns
    at once, and [Parse] returns no record and a nil error, whatever the
    schedule; nothing is requested. *)
Theorem Parse_empty_feed (w : World) (url : string) (feed : gofeed.Feed.t)
        (sched : list nat) :
  gofeed_ParseURL w url = inl feed ->
  gofeed.Feed.Items feed = [] ->
  tasks (run w url feed sched) = [] /\
  snd (Parse w url sched) = Return [] None /\
  filter is_fetch (fst (Parse w url sched)) = [].
Proof.
  intros Hf He. unfold Parse. rewrite Hf, (run_no_items w url feed sched He).
  unfold spawn, sliceLength. rewrite He. cbn. auto.
Qed.

Lemma Parse_empty_feed_witness :
  tasks (run (mkWorld (fun _ => inl (gofeed.Feed.mk "Empty" []))
                      Sample.ExtractFromURL Sample.strip_tags
                      ("", None) (fun _ => 0%Z)
                      Sample.Get Sample.NewDocumentFromResponse)
             "http://example.org/empty.xml" (gofeed.Feed.mk "Empty" [])
             [0; 1; 0]) = [] /\
  snd (Parse (mkWorld (fun _ => inl (gofeed.Feed.mk "Empty" []))
                      Sample.ExtractFromURL Sample.strip_tags
                      ("", None) (fun _ => 0%Z)
                      Sample.Get Sample.NewDocumentFromResponse)
             "http://example.org/empty.xml" [0; 1; 0])
  = Return [] None /\
  filter is_fetch
         (fst (Parse (mkWorld (fun _ => inl (gofeed.Feed.mk "Empty" []))
                              Sample.ExtractFromURL Sample.strip_tags
                              ("", None) (fun _ => 0%Z)
                              Sample.Get Sample.NewDocumentFromResponse)
                     "http://example.org/empty.xml" [0; 1; 0])) = [].
Proof.
  apply (Parse_empty_feed
           (mkWorld (fun _ => inl (gofeed.Feed.mk "Empty" []))
                    Sample.ExtractFromURL Sample.strip_tags
                    ("", None) (fun _ => 0%Z)
                    Sample.Get Sample.NewDocumentFromResponse)
           "http://example.org/empty.xml" (gofeed.Feed.mk "Empty" [])
           [0; 1; 0]); reflexivity.
Defined.

(** X6 -- the only error [Parse] returns is the error of the feed: it
    returns an error exactly when the feed cannot be retrieved, and then with
    no record; what goes wrong in the goroutines never comes back as an
    error. *)
Theorem Parse_error_is_feed_error (w : World) (url : string)
        (sched : list nat) (items : list RrssFeed) (e : error) :
  snd (Parse w url sched) = Return items (Some e) <->
  gofeed_ParseURL w url = inr e /\ items = [].
Proof.
  split.
  - intro H. apply Parse_returns in H.
    destruct H as [[e' [He [Hi Herr]]] | [feed [_ [Herr _]]]];
      [| discriminate].
    inversion Herr. subst. auto.
  - intros [He Hi]. subst. unfold Parse. rewrite He. reflexivity.
Qed.

(** ** The largest article, on ties *)

(** X7 -- which article [GetExtendedArticle] keeps.  On a 2xx response
    that parses, a non-empty answer is the sanitized inner HTML of the first
    [<article>] element, in document order, that is strictly longer (once
    sanitized) than every element before it and at least as long as every
    element after it; the render error of an element is ignored. *)
Theorem GetExtendedArticle_first_longest
        (w : World) (link : string) (response : http.Response)
        (doc : goquery.Document) :
  http_Get w link = inl response ->
  (200 <= http.StatusCode response <= 299)%Z ->
  goquery_NewDocumentFromResponse w response = inl doc ->
  fst (snd (GetExtendedArticle w link)) <> "" ->
  exists before s after,
    goquery.Find doc "article" = (before ++ s :: after)%list /\
    snd (GetExtendedArticle w link)
    = (Sanitize w (fst (goquery.Html s)), None) /\
    (forall x, In x before ->
       len (Sanitize w (fst (goquery.Html x)))
       < len (Sanitize w (fst (goquery.Html s)))) /\
    (forall x, In x after ->
       len (Sanitize w (fst (goquery.Html x)))
       <= len (Sanitize w (fst (goquery.Html s)))).
Proof.
  intros Hget Hs Hdoc.
  unfold GetExtendedArticle. rewrite Hget.
  replace ((200 <=? http.StatusCode response)%Z
           && (http.StatusCode response <=? 299)%Z) with true
    by (symmetry; apply andb_true_iff; split; apply Z.leb_le; lia).
  rewrite Hdoc. cbn [fst snd].
  destruct (fold_pick_first w (goquery.Find doc "article") "")
    as [[Hr _] | [before [s [after [Hl [Hr [_ [Hb Ha]]]]]]]].
  - intro Hne. now elim Hne.
  - intros _. exists before, s, after. rewrite <- Hr. auto.
Qed.

Lemma GetExtendedArticle_first_longest_witness :
  exists before s after,
    goquery.Find Sample.page "article" = (before ++ s :: after)%list /\
    snd (GetExtendedArticle Sample.world "http://example.org/ok")
    = (Sanitize Sample.world (fst (goquery.Html s)), None) /\
    (forall x, In x before ->
       len (Sanitize Sample.world (fst (goquery.Html x)))
       < len (Sanitize Sample.world (fst (goquery.Html s)))) /\
    (forall x, In x after ->
       len (Sanitize Sample.world (fst (goquery.Html x)))
       <= len (Sanitize Sample.world (fst (goquery.Html s)))).
Proof.
  apply (GetExtendedArticle_first_longest Sample.world
           "http://example.org/ok"
           (http.mkResponse 200 "<html>...</html>") Sample.page).
  - reflexivity.
  - cbn. lia.
  - reflexivity.
  - vm_compute. discriminate.
Defined.

(** ** No record twice *)

Lemma NoDup_snoc {A} (l : list A) (x : A) :
  NoDup l -> ~ In x l -> NoDup (l ++ [x]).
Proof.
  induction 1 as [|y l Hy Hl IH]; intro Hx; cbn.
  - constructor; [intros [] | constructor].
  - constructor.
    + rewrite in_app_iff. intros [H | [H | []]]; [auto |].
      subst. apply Hx. left. reflexivity.
    + apply IH. intro H. apply Hx. right. exact H.
Qed.

Section Distinct.

Variable w : World.
Variable url : string.
Variable feed : gofeed.Feed.t.

Lemma record_of_task (i : nat) (r : RrssFeed) :
  result (task w url feed i) = inr r -> record_of w url feed i = r.
Proof. intro H. unfold record_of. rewrite H. reflexivity. Qed.




End Distinct.



(** ** What a run requests *)

Lemma fetches_of_length (feed : gofeed.Feed.t) (j : nat) :
  List.length (fetches_of feed j) <= 1.
Proof.
  unfold fetches_of.
  destruct (nth_error (gofeed.Feed.Items feed) j) as [item|];
    [| apply Nat.le_0_l].
  destruct (0 <? len (gofeed.Item.Link item));
    [apply Nat.le_refl | apply Nat.le_0_l].
Qed.

Lemma flat_map_fetches_length (feed : gofeed.Feed.t) (js : list nat) :
  List.length (flat_map (fetches_of feed) js) <= List.length js.
Proof.
  induction js as [|j js IH]; cbn; [lia |].
  rewrite length_app. pose proof (fetches_of_length feed j). lia.
Qed.

Lemma fetches_of_In (feed : gofeed.Feed.t) (j : nat) (u : string) :
  In (Fetch u) (fetches_of feed j) ->
  exists item,
    nth_error (gofeed.Feed.Items feed) j = Some item /\
    gofeed.Item.Link item = u /\ u <> "".
Proof.
  unfold fetches_of.
  destruct (nth_error (gofeed.Feed.Items feed) j) as [item|]; [| intros []].
  destruct (0 <? len (gofeed.Item.Link item)) eqn:Hl; [| intros []].
  intros [H | []]. inversion H. subst. exists item.
  split; [reflexivity |]. split; [reflexivity |].
  now apply len_pos_iff.
Qed.

Section Requests.

Variable w : World.
Variable url : string.
Variable feed : gofeed.Feed.t.

(** The requests of a run are those of distinct goroutines, in the order
    in which the goroutines took their first step. *)
Lemma run_fetches (sched : list nat) :
  let st := run w url feed sched in
  exists js,
    NoDup js /\
    (forall j, In j js -> j < sliceLength feed) /\
    filter is_fetch (printed st) = flat_map (fetches_of feed) js /\
    (crashed st = None ->
     forall j, In j js -> nth_error (tasks st) j <> Some Spawned).
Proof.
  cbn zeta.
  cut (List.length (tasks (run w url feed sched)) = sliceLength feed /\
       exists js,
         NoDup js /\
         (forall j, In j js -> j < sliceLength feed) /\
         filter is_fetch (printed (run w url feed sched))
         = flat_map (fetches_of feed) js /\
         (crashed (run w url feed sched) = None ->
          forall j, In j js ->
                    nth_error (tasks (run w url feed sched)) j
                    <> Some Spawned)); [tauto |].
  apply run_invariant with
    (I := fun st =>
       List.length (tasks st) = sliceLength feed /\
       exists js,
         NoDup js /\
         (forall j, In j js -> j < sliceLength feed) /\
         filter is_fetch (printed st) = flat_map (fetches_of feed) js /\
         (crashed st = None ->
          forall j, In j js -> nth_error (tasks st) j <> Some Spawned)).
  - cbn. split; [apply repeat_length |]. exists [].
    split; [constructor |]. split; [intros j [] |].
    split; [reflexivity | intros _ j []].
  - intros st j [Hlen [js [Hnd [Hlt [Hf Hsp]]]]]. unfold step.
    destruct (crashed st) eqn:Hc.
    { split; [exact Hlen |]. exists js. rewrite Hc. auto. }
    specialize (Hsp eq_refl).
    destruct (nth_error (tasks st) j) as [[| r0 | old0 r0 |]|] eqn:Hn.
    + (* first step of goroutine j *)
      assert (Hj : ~ In j js) by (intro Hin; exact (Hsp j Hin Hn)).
      assert (Hjn : j < sliceLength feed)
        by (rewrite <- Hlen; apply nth_error_Some; congruence).
      pose proof (task_fetches w url feed j) as Hes. unfold events in Hes.
      destruct (task w url feed j) as [es [a | r1]]; cbn [fst] in Hes; cbn.
      * split; [exact Hlen |]. exists (js ++ [j])%list.
        split; [now apply NoDup_snoc |].
        split; [intros k Hk; apply in_app_iff in Hk;
                destruct Hk as [Hk | [<- | []]]; auto |].
        split; [| discriminate].
        rewrite filter_app, flat_map_app, Hf, Hes. cbn.
        now rewrite app_nil_r.
      * rewrite update_length. split; [exact Hlen |].
        exists (js ++ [j])%list.
        split; [now apply NoDup_snoc |].
        split; [intros k Hk; apply in_app_iff in Hk;
                destruct Hk as [Hk | [<- | []]]; auto |].
        split; [rewrite filter_app, flat_map_app, Hf, Hes; cbn;
                now rewrite app_nil_r |].
        intros _ k Hk. apply in_app_iff in Hk.
        destruct Hk as [Hk | [<- | []]].
        -- rewrite nth_error_update_neq by (intros ->; contradiction).
           auto.
        -- rewrite (nth_error_update_eq _ _ _ _ Hn). discriminate.
    + cbn. rewrite update_length. split; [exact Hlen |]. exists js.
      split; [exact Hnd |]. split; [exact Hlt |]. split; [exact Hf |].
      intros _ k Hk. destruct (Nat.eq_dec j k) as [-> | Hne].
      * rewrite (nth_error_update_eq _ _ _ _ Hn). discriminate.
      * rewrite nth_error_update_neq by exact Hne. auto.
    + cbn. rewrite update_length. split; [exact Hlen |]. exists js.
      split; [exact Hnd |]. split; [exact Hlt |].
      split; [rewrite filter_app, Hf; cbn; now rewrite app_nil_r |].
      intros _ k Hk. destruct (Nat.eq_dec j k) as [-> | Hne].
      * rewrite (nth_error_update_eq _ _ _ _ Hn). discriminate.
      * rewrite nth_error_update_neq by exact Hne. auto.
    + split; [exact Hlen |]. exists js. rewrite Hc. auto.
    + split; [exact Hlen |]. exists js. rewrite Hc. auto.
Qed.

End Requests.

Section Started.

Variable w : World.
Variable url : string.
Variable feed : gofeed.Feed.t.

Hypothesis all_built :
  forall i, i < sliceLength feed ->
            exists r, result (task w url feed i) = inr r.

(** When no goroutine stops the process, a schedule adds to the trace the
    requests of the goroutines it starts, in the order in which it starts
    them. *)
Lemma fold_first_fetches (sched : list nat) (st : Process)
      (seen : list nat) :
  crashed st = None ->
  List.length (tasks st) = sliceLength feed ->
  (forall j, j < sliceLength feed ->
     (existsb (Nat.eqb j) seen = true <->
      nth_error (tasks st) j <> Some Spawned)) ->
  filter is_fetch (printed (fold_left (step w url feed) sched st))
  = (filter is_fetch (printed st)
     ++ flat_map (fetches_of feed)
                 (first_steps (sliceLength feed) seen sched))%list.
Proof.
  revert st seen.
  induction sched as [|i sched IH]; intros st seen Hc Hlen Hseen.
  - cbn. now rewrite app_nil_r.
  - cbn [fold_left first_steps].
    destruct (i <? sliceLength feed) eqn:Hi.
    2:{ apply Nat.ltb_ge in Hi. cbn [andb].
        replace (step w url feed st i) with st; [now apply IH |].
        unfold step. rewrite Hc.
        assert (Hn : nth_error (tasks st) i = None)
          by (apply nth_error_None; lia).
        now rewrite Hn. }
    apply Nat.ltb_lt in Hi. cbn [andb].
    destruct (nth_error (tasks st) i) as [pc|] eqn:Hn;
      [| apply nth_error_None in Hn; lia].
    destruct (existsb (Nat.eqb i) seen) eqn:Hs; cbn [negb].
    + (* a later step of a goroutine already started *)
      assert (Hpc : pc <> Spawned)
        by (intros ->; apply (proj1 (Hseen i Hi) Hs); exact Hn).
      assert (Hstep :
                crashed (step w url feed st i) = None /\
                List.length (tasks (step w url feed st i))
                = sliceLength feed /\
                filter is_fetch (printed (step w url feed st i))
                = filter is_fetch (printed st) /\
                forall j, j <> i ->
                          nth_error (tasks (step w url feed st i)) j
                          = nth_error (tasks st) j).
      { unfold step. rewrite Hc, Hn.
        destruct pc as [| r0 | old0 r0 |]; [now elim Hpc | | |]; cbn.
        - rewrite update_length. repeat split; auto.
          intros j Hj. now apply nth_error_update_neq.
        - rewrite update_length, filter_app. cbn. rewrite app_nil_r.
          repeat split; auto.
          intros j Hj. now apply nth_error_update_neq.
        - rewrite Hc. auto. }
      destruct Hstep as [Hc' [Hlen' [Hp' Hother]]].
      rewrite (IH _ seen Hc' Hlen'); [now rewrite Hp' |].
      intros j Hj. rewrite (Hseen j Hj).
      destruct (Nat.eq_dec j i) as [-> | Hne];
        [| now rewrite (Hother j Hne)].
      split; intros _; [| congruence].
      unfold step. rewrite Hc, Hn.
      destruct pc as [| r0 | old0 r0 |]; [now elim Hpc | | |]; cbn;
        rewrite ?(nth_error_update_eq _ _ _ _ Hn), ?Hn; discriminate.
    + (* the first step of goroutine [i] *)
      assert (Hpc : pc = Spawned).
      { destruct pc; try reflexivity; exfalso;
          assert (Ht : existsb (Nat.eqb i) seen = true)
            by (apply (Hseen i Hi); rewrite Hn; discriminate);
          congruence. }
      subst pc.
      destruct (all_built i Hi) as [r Hr]. unfold result in Hr.
      pose proof (task_fetches w url feed i) as Hes. unfold events in Hes.
      assert (Hstep :
                crashed (step w url feed st i) = None /\
                tasks (step w url feed st i) = update (tasks st) i (Built r) /\
                filter is_fetch (printed (step w url feed st i))
                = (filter is_fetch (printed st) ++ fetches_of feed i)%list).
      { unfold step. rewrite Hc, Hn.
        destruct (task w url feed i) as [es [a | r1]]; cbn in Hr, Hes;
          [discriminate |].
        inversion Hr. subst r1. cbn. rewrite filter_app, Hes. auto. }
      destruct Hstep as [Hc' [Ht' Hp']].
      rewrite (IH _ (i :: seen) Hc').
      * rewrite Hp'. cbn [flat_map]. now rewrite <- app_assoc.
      * rewrite Ht', update_length. exact Hlen.
      * intros j Hj. cbn [existsb]. rewrite Ht'.
        destruct (Nat.eq_dec j i) as [-> | Hne].
        -- rewrite Nat.eqb_refl, (nth_error_update_eq _ _ _ _ Hn). cbn.
           split; [discriminate | reflexivity].
        -- rewrite nth_error_update_neq by congruence.
           apply Nat.eqb_neq in Hne. rewrite Hne. cbn. apply Hseen, Hj.
Qed.

End Started.

(** The requests of the trace of [Parse] are those of its run. *)
Lemma Parse_trace_fetches (w : World) (url : string) (feed : gofeed.Feed.t)
      (sched : list nat) :
  gofeed_ParseURL w url = inl feed ->
  filter is_fetch (fst (Parse w url sched))
  = filter is_fetch (printed (run w url feed sched)).
Proof.
  intro Hf. unfold Parse. rewrite Hf.
  destruct (crashed (run w url feed sched)).
  - cbn [fst]. rewrite filter_app. reflexivity.
  - destruct (wg (run w url feed sched) =? 0); cbn [fst];
      rewrite !filter_app; cbn; rewrite ?app_nil_r; reflexivity.
Qed.

(** X9 -- what [Parse] requests.  Whatever the schedule and however the run
    ends, the article requests of [Parse] are those of distinct items of the
    feed, at most one per item: there are no more requests than items, and
    each is for the non-empty link of an item.  When no goroutine stops the
    process, the requests are exactly those of the goroutines the schedule
    has started, in the order in which it started them: one for each started
    item that has a link, none for an item without. *)
Theorem Parse_fetches_once_per_item (w : World) (url : string)
        (feed : gofeed.Feed.t) (sched : list nat) :
  gofeed_ParseURL w url = inl feed ->
  (exists js,
     NoDup js /\
     (forall j, In j js -> j < sliceLength feed) /\
     filter is_fetch (fst (Parse w url sched))
     = flat_map (fetches_of feed) js) /\
  List.length (filter is_fetch (fst (Parse w url sched)))
  <= sliceLength feed /\
  (forall u, In (Fetch u) (fst (Parse w url sched)) ->
     u <> "" /\
     exists item,
       In item (gofeed.Feed.Items feed) /\ gofeed.Item.Link item = u) /\
  ((forall i, i < sliceLength feed ->
              exists r, result (task w url feed i) = inr r) ->
   filter is_fetch (fst (Parse w url sched))
   = flat_map (fetches_of feed) (first_steps (sliceLength feed) [] sched)).
Proof.
  intro Hf.
  destruct (run_fetches w url feed sched) as [js [Hnd [Hlt [Hfil _]]]].
  assert (Htrace : filter is_fetch (fst (Parse w url sched))
                   = flat_map (fetches_of feed) js)
    by (rewrite (Parse_trace_fetches w url feed sched Hf); exact Hfil).
  split; [| split; [| split]].
  - exists js. auto.
  - rewrite Htrace.
    pose proof (flat_map_fetches_length feed js) as Hl1.
    assert (Hincl : incl js (seq 0 (sliceLength feed))).
    { intros j Hj. apply in_seq. specialize (Hlt j Hj). lia. }
    pose proof (NoDup_incl_length Hnd Hincl) as Hb.
    rewrite length_seq in Hb. lia.
  - intros u Hu.
    assert (Hin : In (Fetch u) (filter is_fetch (fst (Parse w url sched))))
      by (apply filter_In; split; [exact Hu | reflexivity]).
    rewrite Htrace in Hin. apply in_flat_map in Hin.
    destruct Hin as [j [_ Hj]]. apply fetches_of_In in Hj.
    destruct Hj as [item [Hi [Hl Hne]]]. split; [exact Hne |].
    exists item. split; [eapply nth_error_In; eassumption | exact Hl].
  - intro Hall.
    rewrite (Parse_trace_fetches w url feed sched Hf). unfold run.
    rewrite (fold_first_fetches w url feed Hall sched (spawn feed) []);
      [reflexivity | reflexivity | apply repeat_length |].
    intros j Hj. cbn. rewrite nth_error_repeat by exact Hj.
    split; [discriminate | intro H; now elim H].
Qed.

Lemma Parse_fetches_once_per_item_witness :
  filter is_fetch
         (fst (Parse Sample.world "http://example.org/story.xml" [0; 0; 0]))
  = flat_map (fetches_of Sample.feed_story)
             (first_steps (sliceLength Sample.feed_story) [] [0; 0; 0]).
Proof.
  apply (Parse_fetches_once_per_item Sample.world
           "http://example.org/story.xml" Sample.feed_story [0; 0; 0]).
  - reflexivity.
  - intros i Hi.
    destruct i as [|i];
      [eexists; vm_compute; reflexivity | cbn in Hi; lia].
Defined.

(** ** The barrier *)

Lemma progress_le (pc : Pc) : progress pc <= 3.
Proof. destruct pc; cbn; lia. Qed.

Lemma progress_Finished (pc : Pc) : progress pc = 3 -> pc = Finished.
Proof. destruct pc; cbn; intro H; try discriminate; reflexivity. Qed.

Lemma all_Finished_count (l : list Pc) :
  (forall i, i < List.length l -> nth_error l i = Some Finished) ->
  List.length (filter is_finished l) = List.length l.
Proof.
  induction l as [|pc l IH]; intro H; [reflexivity |].
  assert (Hpc : pc = Finished).
  { specialize (H 0 (Nat.lt_0_succ _)). cbn in H. congruence. }
  subst pc. cbn. f_equal. apply IH.
  intros i Hi. apply (H (S i)). cbn. lia.
Qed.

Section Barrier.

Variable w : World.
Variable url : string.
Variable feed : gofeed.Feed.t.

Hypothesis all_built :
  forall i, i < sliceLength feed ->
            exists r, result (task w url feed i) = inr r.

(** A step of goroutine [j] takes goroutine [j] one step further, up to
    its third, and leaves the others where they are. *)
Lemma step_progress (st : Process) (j : nat) :
  crashed st = None ->
  List.length (tasks st) = sliceLength feed ->
  crashed (step w url feed st j) = None /\
  List.length (tasks (step w url feed st j)) = sliceLength feed /\
  forall i pc,
    nth_error (tasks st) i = Some pc ->
    exists pc',
      nth_error (tasks (step w url feed st j)) i = Some pc' /\
      progress pc'
      = Nat.min 3 (progress pc + if Nat.eq_dec j i then 1 else 0).
Proof.
  intros Hc Hlen.
  assert (Hsame : forall i pc,
             nth_error (tasks st) i = Some pc -> j <> i ->
             exists pc',
               nth_error (tasks st) i = Some pc' /\
               progress pc'
               = Nat.min 3 (progress pc + if Nat.eq_dec j i then 1 else 0)).
  { intros i pc Hi Hne. exists pc. split; [exact Hi |].
    destruct (Nat.eq_dec j i); [contradiction |].
    pose proof (progress_le pc). lia. }
  assert (Hmoved : forall x y,
             nth_error (tasks st) j = Some x ->
             progress y = S (progress x) ->
             forall i pc,
               nth_error (tasks st) i = Some pc ->
               exists pc',
                 nth_error (update (tasks st) j y) i = Some pc' /\
                 progress pc'
                 = Nat.min 3 (progress pc
                              + if Nat.eq_dec j i then 1 else 0)).
  { intros x y Hx Hy i pc Hi.
    destruct (Nat.eq_dec j i) as [<- | Hne].
    - exists y. split; [eapply nth_error_update_eq; eassumption |].
      assert (pc = x) by congruence. subst pc.
      pose proof (progress_le y). lia.
    - rewrite nth_error_update_neq by exact Hne.
      destruct (Hsame i pc Hi Hne) as [pc' [H1 H2]].
      destruct (Nat.eq_dec j i); [contradiction |]. eauto. }
  unfold step. rewrite Hc.
  destruct (nth_error (tasks st) j) as [[| r0 | old0 r0 |]|] eqn:Hn.
  - assert (Hj : j < sliceLength feed)
      by (rewrite <- Hlen; apply nth_error_Some; congruence).
    destruct (all_built j Hj) as [r Hr]. unfold result in Hr.
    destruct (task w url feed j) as [es [a | r1]]; cbn in Hr;
      [discriminate |].
    cbn. rewrite update_length. split; [reflexivity |].
    split; [exact Hlen |]. apply (Hmoved Spawned); reflexivity.
  - cbn. rewrite update_length. split; [reflexivity |].
    split; [exact Hlen |].
    apply (Hmoved (Built r0)); reflexivity.
  - cbn. rewrite update_length. split; [reflexivity |].
    split; [exact Hlen |].
    apply (Hmoved (Loaded old0 r0)); reflexivity.
  - split; [exact Hc |]. split; [exact Hlen |].
    intros i pc Hi. destruct (Nat.eq_dec j i) as [<- | Hne].
    + exists Finished. split; [exact Hn |].
      assert (pc = Finished) by congruence. subst pc. reflexivity.
    + destruct (Hsame i pc Hi Hne) as [pc' [H1 H2]].
      destruct (Nat.eq_dec j i); [contradiction |]. eauto.
  - split; [exact Hc |]. split; [exact Hlen |].
    intros i pc Hi. destruct (Nat.eq_dec j i) as [<- | Hne];
      [congruence |].
    destruct (Hsame i pc Hi Hne) as [pc' [H1 H2]].
    destruct (Nat.eq_dec j i); [contradiction |]. eauto.
Qed.

(** After a schedule a goroutine is as many steps further as the schedule
    names it, up to its third. *)
Lemma fold_progress (sched : list nat) (st : Process) :
  crashed st = None ->
  List.length (tasks st) = sliceLength feed ->
  crashed (fold_left (step w url feed) sched st) = None /\
  forall i pc,
    nth_error (tasks st) i = Some pc ->
    exists pc',
      nth_error (tasks (fold_left (step w url feed) sched st)) i = Some pc' /\
      progress pc' = Nat.min 3 (progress pc + count_occ Nat.eq_dec sched i).
Proof.
  revert st. induction sched as [|j sched IH]; intros st Hc Hlen.
  - cbn [fold_left count_occ]. split; [exact Hc |]. intros i pc Hi.
    exists pc. split; [exact Hi |]. pose proof (progress_le pc). lia.
  - cbn [fold_left].
    destruct (step_progress st j Hc Hlen) as [Hc1 [Hlen1 Hp1]].
    destruct (IH _ Hc1 Hlen1) as [Hc2 Hp2].
    split; [exact Hc2 |]. intros i pc Hi.
    destruct (Hp1 i pc Hi) as [pc1 [Hi1 Hpc1]].
    destruct (Hp2 i pc1 Hi1) as [pc2 [Hi2 Hpc2]].
    exists pc2. split; [exact Hi2 |].
    rewrite Hpc2, Hpc1. cbn [count_occ].
    destruct (Nat.eq_dec j i); lia.
Qed.

End Barrier.

(** X10 -- the barrier.  On a feed whose goroutines all build their record,
    [Parse] returns exactly under the schedules in which every goroutine has
    taken its three steps: [wg.Wait] lets no run through earlier and holds
    none back later. *)
Theorem Parse_returns_iff_all_finished (w : World) (url : string)
        (feed : gofeed.Feed.t) (sched : list nat) :
  gofeed_ParseURL w url = inl feed ->
  (forall i, i < sliceLength feed ->
             exists r, result (task w url feed i) = inr r) ->
  (exists items, snd (Parse w url sched) = Return items None) <->
  (forall i, i < sliceLength feed -> 3 <= count_occ Nat.eq_dec sched i).
Proof.
  intros Hf Hall.
  destruct (fold_progress w url feed Hall sched (spawn feed) eq_refl
              (repeat_length _ _)) as [Hc Hp].
  fold (run w url feed sched) in Hc, Hp.
  assert (Hsp : forall i, i < sliceLength feed ->
                          nth_error (tasks (spawn feed)) i = Some Spawned)
    by (intros i Hi; cbn; now apply nth_error_repeat).
  split.
  - intros [items H] i Hi. apply Parse_returns in H.
    destruct H as [[e [He _]] | [feed' [Hf' [_ [_ [Hwg _]]]]]];
      [congruence |].
    assert (feed' = feed) by congruence. subst feed'.
    destruct (Hp i Spawned (Hsp i Hi)) as [pc' [Hi' Hpc']].
    rewrite (run_all_finished w url feed sched i Hwg Hi) in Hi'.
    inversion Hi'. subst pc'. cbn [progress] in Hpc'. lia.
  - intro Hcount.
    assert (Hfin : forall i, i < List.length (tasks (run w url feed sched)) ->
                     nth_error (tasks (run w url feed sched)) i
                     = Some Finished).
    { intros i Hi.
      destruct (run_counter w url feed sched) as [Hlen _].
      rewrite Hlen in Hi.
      destruct (Hp i Spawned (Hsp i Hi)) as [pc' [Hi' Hpc']].
      specialize (Hcount i Hi). cbn [progress] in Hpc'.
      rewrite Hi'. f_equal. apply progress_Finished. lia. }
    apply all_Finished_count in Hfin.
    destruct (run_counter w url feed sched) as [Hlen Hwg].
    unfold finished in Hwg.
    exists (feedItems (run w url feed sched)).
    unfold Parse. rewrite Hf, Hc.
    replace (wg (run w url feed sched)) with 0 by lia. reflexivity.
Qed.

Lemma Parse_returns_iff_all_finished_witness :
  (exists items,
     snd (Parse Sample.world "http://example.org/two.xml" [1; 0; 1; 0; 0; 1])
     = Return items None) <->
  (forall i, i < sliceLength Sample.feed_two ->
             3 <= count_occ Nat.eq_dec [1; 0; 1; 0; 0; 1] i).
Proof.
  apply (Parse_returns_iff_all_finished Sample.world
           "http://example.org/two.xml" Sample.feed_two).
  - reflexivity.
  - intros i Hi.
    destruct i as [|[|i]];
      [eexists; vm_compute; reflexivity
      | eexists; vm_compute; reflexivity
      | cbn in Hi; lia].
Defined.

(** ** The id of a returned record *)



(** ** What [GetExtendedArticle] never returns *)

(** X15 -- whatever the link answers, [GetExtendedArticle] returns no text
    together with an error, and the text it returns is empty or came out of
    the sanitizer: the markup of the page is never handed back as it is. *)
Theorem GetExtendedArticle_never_raw (w : World) (link : string) :
  (snd (snd (GetExtendedArticle w link)) <> None ->
   fst (snd (GetExtendedArticle w link)) = "") /\
  (fst (snd (GetExtendedArticle w link)) <> "" ->
   exists html, fst (snd (GetExtendedArticle w link)) = Sanitize w html).
Proof.
  unfold GetExtendedArticle.
  destruct (http_Get w link) as [response | e];
    [| cbn; split; [reflexivity | intro H; now elim H]].
  destruct ((200 <=? http.StatusCode response)%Z
            && (http.StatusCode response <=? 299)%Z);
    [| cbn; split; [reflexivity | intro H; now elim H]].
  destruct (goquery_NewDocumentFromResponse w response) as [doc | e];
    [| cbn; split; [reflexivity | intro H; now elim H]].
  cbn [fst snd]. split; [intro H; now elim H |].
  intro Hne.
  destruct (fold_pick w (goquery.Find doc "article") "") as [[Hr | Hin] _];
    [contradiction |].
  apply in_map_iff in Hin. destruct Hin as [s [Hs _]].
  exists (fst (goquery.Html s)). symmetry. exact Hs.
Qed.

Lemma GetExtendedArticle_never_raw_witness :
  exists html,
    fst (snd (GetExtendedArticle Sample.world "http://example.org/ok"))
    = Sanitize Sample.world html.
Proof.
  apply (proj2 (GetExtendedArticle_never_raw Sample.world
                  "http://example.org/ok")).
  vm_compute. discriminate.
Defined.

Lemma Parse_error_is_feed_error_witness :
  snd (Parse Sample.world "http://example.org/nothing.xml" [0; 1])
  = Return [] (Some "no such host").
Proof.
  apply (proj2 (Parse_error_is_feed_error Sample.world
                  "http://example.org/nothing.xml" [0; 1] []
                  "no such host")).
  split; reflexivity.
Defined.

(** ** One goroutine after the other, in any order *)

Section AnyOrder.

Variable w : World.
Variable url : string.
Variable feed : gofeed.Feed.t.

(** Goroutines that run to their end one after the other append their
    records to the slice one after the other. *)
Lemma fold_serial_in (order : list nat) (st : Process) :
  crashed st = None ->
  NoDup order ->
  (forall i, In i order ->
     nth_error (tasks st) i = Some Spawned /\
     result (task w url feed i) = inr (record_of w url feed i)) ->
  let st' := fold_left (step w url feed) (serial_in order) st in
  feedItems st'
  = (feedItems st ++ map (record_of w url feed) order)%list /\
  wg st' = wg st - List.length order /\
  crashed st' = None.
Proof.
  revert st. induction order as [|i order IH]; intros st Hc Hnd Hall;
    cbn zeta.
  - cbn. rewrite app_nil_r, Nat.sub_0_r. auto.
  - inversion Hnd as [|? ? Hi Hnd']. subst.
    change (serial_in (i :: order))
      with ([i; i; i] ++ serial_in order)%list.
    rewrite fold_left_app.
    destruct (Hall i (or_introl eq_refl)) as [Hsp Hr].
    destruct (step_thrice w url feed st i _ Hc Hsp Hr)
      as [Hf3 [Ht3 [Hw3 Hc3]]].
    destruct (IH _ Hc3 Hnd') as [Hf [Hw Hc']].
    + intros j Hj. destruct (Hall j (or_intror Hj)) as [Hj1 Hj2].
      split; [| exact Hj2].
      rewrite Ht3, nth_error_update_neq; [exact Hj1 |].
      intros ->. contradiction.
    + rewrite Hf, Hw, Hf3, Hw3. cbn [map List.length].
      rewrite <- app_assoc. cbn [app].
      split; [reflexivity |]. split; [lia | exact Hc'].
Qed.

End AnyOrder.

(** X11 -- one goroutine after the other.  When the goroutines run to
    their end one after the other, in whatever order, and none stops the
    process, [Parse] returns exactly one record per item, in the order in
    which the goroutines ran (the order of the items only when they ran in
    that order). *)
Theorem Parse_serial_in_any_order (w : World) (url : string)
        (feed : gofeed.Feed.t) (order : list nat) :
  gofeed_ParseURL w url = inl feed ->
  (forall i, i < sliceLength feed ->
             exists r, result (task w url feed i) = inr r) ->
  Permutation order (seq 0 (sliceLength feed)) ->
  snd (Parse w url (serial_in order))
  = Return (map (record_of w url feed) order) None /\
  List.length (map (record_of w url feed) order) = sliceLength feed.
Proof.
  intros Hf Hall Hperm.
  assert (Hlen : List.length order = sliceLength feed)
    by (rewrite (Permutation_length Hperm); apply length_seq).
  split; [| now rewrite length_map].
  assert (Hnd : NoDup order)
    by (apply (Permutation_NoDup (Permutation_sym Hperm)), seq_NoDup).
  destruct (fold_serial_in w url feed order (spawn feed) eq_refl Hnd)
    as [Hi [Hw Hc]].
  - intros i Hin.
    assert (Hi : i < sliceLength feed).
    { apply (Permutation_in _ Hperm) in Hin. apply in_seq in Hin. lia. }
    split; [cbn; now apply nth_error_repeat |].
    destruct (Hall i Hi) as [r Hr]. rewrite Hr. f_equal. symmetry.
    now apply record_of_task.
  - fold (run w url feed (serial_in order)) in Hi, Hw, Hc.
    unfold Parse. rewrite Hf, Hc, Hw, Hi. cbn [wg spawn feedItems app].
    rewrite Hlen, Nat.sub_diag. reflexivity.
Qed.

Lemma Parse_serial_in_any_order_witness :
  snd (Parse Sample.world "http://example.org/two.xml" (serial_in [1; 0]))
  = Return (map (record_of Sample.world "http://example.org/two.xml"
                           Sample.feed_two) [1; 0]) None /\
  List.length (map (record_of Sample.world "http://example.org/two.xml"
                              Sample.feed_two) [1; 0])
  = sliceLength Sample.feed_two.
Proof.
  apply (Parse_serial_in_any_order Sample.world
           "http://example.org/two.xml" Sample.feed_two [1; 0]).
  - reflexivity.
  - intros i Hi.
    destruct i as [|[|i]];
      [eexists; vm_compute; reflexivity
      | eexists; vm_compute; reflexivity
      | cbn in Hi; lia].
  - apply perm_swap.
Defined.

(** ** Every read before every write *)

Lemma reads_first_snoc_Read (l : list (nat * Access)) (j : nat) :
  reads_first (l ++ [(j, Read)]) = true ->
  reads_first l = true /\ last_write l = None.
Proof.
  induction l as [|[i a] l IH]; intro H; [auto |].
  destruct a; cbn in H |- *.
  - destruct (IH H) as [H1 H2]. rewrite H2. auto.
  - rewrite forallb_app in H. cbn in H.
    rewrite andb_false_r in H. discriminate.
Qed.

Lemma reads_first_snoc_Write (l : list (nat * Access)) (j : nat) :
  reads_first (l ++ [(j, Write)]) = true -> reads_first l = true.
Proof.
  induction l as [|[i a] l IH]; intro H; [reflexivity |].
  destruct a; cbn in H |- *; [auto |].
  rewrite forallb_app in H. apply andb_true_iff in H. tauto.
Qed.

Lemma last_write_snoc_Write (l : list (nat * Access)) (j : nat) :
  last_write (l ++ [(j, Write)]) = Some j.
Proof.
  induction l as [|[i a] l IH]; [reflexivity |].
  cbn. now rewrite IH.
Qed.

Lemma last_write_snoc_Read (l : list (nat * Access)) (j : nat) :
  last_write (l ++ [(j, Read)]) = last_write l.
Proof.
  induction l as [|[i a] l IH]; [reflexivity |].
  cbn. now rewrite IH.
Qed.

Section ReadsFirst.

Variable w : World.
Variable url : string.
Variable feed : gofeed.Feed.t.

(** As long as no goroutine has read the slice after a write, every slice
    read is empty and the shared slice holds the record of the last writer
    alone. *)
Lemma run_reads_first (sched : list nat) :
  let st := run w url feed sched in
  (forall i r, nth_error (tasks st) i = Some (Built r) ->
               r = record_of w url feed i) /\
  (forall i old r, nth_error (tasks st) i = Some (Loaded old r) ->
                   r = record_of w url feed i) /\
  (reads_first (accesses st) = true ->
   (forall i old r, nth_error (tasks st) i = Some (Loaded old r) ->
                    old = []) /\
   feedItems st = match last_write (accesses st) with
                  | Some k => [record_of w url feed k]
                  | None => []
                  end).
Proof.
  apply run_invariant with
    (I := fun st =>
       (forall i r, nth_error (tasks st) i = Some (Built r) ->
                    r = record_of w url feed i) /\
       (forall i old r, nth_error (tasks st) i = Some (Loaded old r) ->
                        r = record_of w url feed i) /\
       (reads_first (accesses st) = true ->
        (forall i old r, nth_error (tasks st) i = Some (Loaded old r) ->
                         old = []) /\
        feedItems st = match last_write (accesses st) with
                       | Some k => [record_of w url feed k]
                       | None => []
                       end)).
  - cbn. split; [| split; [| split]]; try reflexivity;
      intros i; intros; match goal with
                        | H : nth_error _ _ = Some _ |- _ =>
                            apply nth_error_In, repeat_spec in H;
                            discriminate
                        end.
  - intros st j [HB [HL HR]]. unfold step.
    destruct (crashed st); [auto |].
    destruct (nth_error (tasks st) j) as [[| r0 | old0 r0 |]|] eqn:Hn; auto.
    + (* build *)
      destruct (task w url feed j) as [es [a | r1]] eqn:Ht; cbn; auto.
      assert (Hr1 : record_of w url feed j = r1)
        by (apply record_of_task; unfold result; now rewrite Ht).
      split; [| split].
      * intros i r. destruct (Nat.eq_dec j i) as [-> | Hne].
        -- rewrite (nth_error_update_eq _ _ _ _ Hn). congruence.
        -- rewrite nth_error_update_neq by exact Hne. auto.
      * intros i old r. destruct (Nat.eq_dec j i) as [-> | Hne].
        -- rewrite (nth_error_update_eq _ _ _ _ Hn). discriminate.
        -- rewrite nth_error_update_neq by exact Hne. eauto.
      * intro Hrf. destruct (HR Hrf) as [Hold Hfeed].
        split; [| exact Hfeed].
        intros i old r. destruct (Nat.eq_dec j i) as [-> | Hne].
        -- rewrite (nth_error_update_eq _ _ _ _ Hn). discriminate.
        -- rewrite nth_error_update_neq by exact Hne. eauto.
    + (* read *)
      cbn. split; [| split].
      * intros i r. destruct (Nat.eq_dec j i) as [-> | Hne].
        -- rewrite (nth_error_update_eq _ _ _ _ Hn). discriminate.
        -- rewrite nth_error_update_neq by exact Hne. auto.
      * intros i old r. destruct (Nat.eq_dec j i) as [-> | Hne].
        -- rewrite (nth_error_update_eq _ _ _ _ Hn).
           intro H. inversion H. subst. eauto.
        -- rewrite nth_error_update_neq by exact Hne. eauto.
      * intro Hrf. apply reads_first_snoc_Read in Hrf.
        destruct Hrf as [Hrf Hnone].
        destruct (HR Hrf) as [Hold Hfeed]. rewrite Hnone in Hfeed.
        rewrite last_write_snoc_Read, Hnone.
        split; [| exact Hfeed].
        intros i old r. destruct (Nat.eq_dec j i) as [-> | Hne].
        -- rewrite (nth_error_update_eq _ _ _ _ Hn).
           intro H. inversion H. subst. exact Hfeed.
        -- rewrite nth_error_update_neq by exact Hne. eauto.
    + (* write *)
      cbn. split; [| split].
      * intros i r. destruct (Nat.eq_dec j i) as [-> | Hne].
        -- rewrite (nth_error_update_eq _ _ _ _ Hn). discriminate.
        -- rewrite nth_error_update_neq by exact Hne. auto.
      * intros i old r. destruct (Nat.eq_dec j i) as [-> | Hne].
        -- rewrite (nth_error_update_eq _ _ _ _ Hn). discriminate.
        -- rewrite nth_error_update_neq by exact Hne. eauto.
      * intro Hrf. apply reads_first_snoc_Write in Hrf.
        destruct (HR Hrf) as [Hold Hfeed].
        rewrite last_write_snoc_Write.
        rewrite (Hold _ _ _ Hn), (HL _ _ _ Hn).
        split; [| reflexivity].
        intros i old r. destruct (Nat.eq_dec j i) as [-> | Hne].
        -- rewrite (nth_error_update_eq _ _ _ _ Hn). discriminate.
        -- rewrite nth_error_update_neq by exact Hne. eauto.
Qed.

End ReadsFirst.

(** X12 -- every read before every write.  In every run in which no
    goroutine reads [feedItems] once a goroutine has written it, [Parse]
    returns at most one record, however many items the feed has: the record
    of the goroutine that wrote last, since each write replaces the one
    before. *)
Theorem Parse_reads_first_keeps_last_write
        (w : World) (url : string) (feed : gofeed.Feed.t)
        (sched : list nat) (items : list RrssFeed) (err : option error) :
  gofeed_ParseURL w url = inl feed ->
  snd (Parse w url sched) = Return items err ->
  reads_first (accesses (run w url feed sched)) = true ->
  items = match last_write (accesses (run w url feed sched)) with
          | Some k => [record_of w url feed k]
          | None => []
          end /\
  List.length items <= 1.
Proof.
  intros Hf H Hrf. apply Parse_returns in H.
  destruct H as [[e [He _]] | [feed' [Hf' [_ [Hi _]]]]]; [congruence |].
  assert (feed' = feed) by congruence. subst feed'.
  destruct (run_reads_first w url feed sched) as [_ [_ HR]].
  destruct (HR Hrf) as [_ Hfeed].
  rewrite Hi, Hfeed. split; [reflexivity |].
  destruct (last_write (accesses (run w url feed sched))); cbn; lia.
Qed.

Lemma Parse_reads_first_keeps_last_write_witness :
  [Sample.record_hello1]
  = match last_write
            (accesses (run Sample.world "http://example.org/two.xml"
                           Sample.feed_two [0; 1; 0; 1; 1; 0])) with
    | Some k => [record_of Sample.world "http://example.org/two.xml"
                           Sample.feed_two k]
    | None => []
    end /\
  List.length [Sample.record_hello1] <= 1.
Proof.
  apply (Parse_reads_first_keeps_last_write Sample.world
           "http://example.org/two.xml" Sample.feed_two [0; 1; 0; 1; 1; 0]
           [Sample.record_hello1] None).
  - reflexivity.
  - vm_compute. reflexivity.
  - vm_compute. reflexivity.
Defined.
